(** * SLA-Forge agent pipeline: Planner, ToolExecutor, Solver, Verifier

    A shallow embedding of [src/agents/planner.py], [src/agents/tools.py],
    [src/agents/solver.py] and [src/agents/verifier.py], together with the
    part of Python's [difflib.SequenceMatcher] that [ToolExecutor._score]
    calls, and the properties of the pipeline stated over it.

    Conventions of the embedding.
    - A Python [str] is the list of its Unicode code points ([pystr]).
      String literals of the source are written [py "..."]: the UTF-8 text
      of the literal, decoded to code points.
    - A Python [float] is modelled by the rational number it denotes
      ([Q]); [==] on floats is [Qeq], and an operation that rounds is
      followed by [fl], the rounding to the nearest double.
    - A [Dict[str, str]] is a [gmap pystr pystr]; a dict whose iteration
      order is observed is an association list.
    - A call that can raise returns [option]: [None] is the exception. *)

From Stdlib Require Import QArith Qround Qabs Lqa.
From stdpp Require Import gmap strings list sorting pretty.

Open Scope nat_scope.

(** ** Python strings *)

Module Str.

(** A code point, and a string of them. *)
Abbreviation char := N.
Abbreviation pystr := (list N).

(** UTF-8 decoding of a source literal: [need] continuation bytes are
    still expected for the code point accumulated in [acc]. *)
Fixpoint utf8_decode (bs : list N) (need : nat) (acc : N) : pystr :=
  match bs with
  | [] => []
  | c :: bs' =>
      match need with
      | 0 =>
          if (c <? 128)%N then c :: utf8_decode bs' 0 0%N
          else if (c <? 224)%N then utf8_decode bs' 1 (c - 192)%N
          else if (c <? 240)%N then utf8_decode bs' 2 (c - 224)%N
          else utf8_decode bs' 3 (c - 240)%N
      | 1 => (acc * 64 + (c - 128))%N :: utf8_decode bs' 0 0%N
      | S n => utf8_decode bs' n (acc * 64 + (c - 128))%N
      end
  end.

Definition py (s : string) : pystr :=
  utf8_decode (map (fun c => N.of_nat (Ascii.nat_of_ascii c)) (String.list_ascii_of_string s)) 0 0%N.

Arguments py : simpl never.
#[global] Opaque py.

(** [bool(s)] / [not s] for a string. *)
Definition is_empty (s : pystr) : bool :=
  match s with [] => true | _ => false end.

(** [s.startswith(p)]. *)
Fixpoint startswith (p s : pystr) : bool :=
  match p, s with
  | [], _ => true
  | _ :: _, [] => false
  | x :: p', y :: s' => (x =? y)%N && startswith p' s'
  end.

(** [sub in s]: [sub] occurs in [s] as a contiguous substring. *)
Fixpoint contains (sub s : pystr) : bool :=
  startswith sub s ||
  match s with
  | [] => false
  | _ :: s' => contains sub s'
  end.

(** The relation computed by [contains]. *)
Definition substring (sub s : pystr) : Prop :=
  exists pre post, s = pre ++ sub ++ post.

(** [sep.join(parts)]. *)
Fixpoint join (sep : pystr) (parts : list pystr) : pystr :=
  match parts with
  | [] => []
  | [p] => p
  | p :: rest => p ++ sep ++ join sep rest
  end.

(** [str.isspace] on one code point: the code points CPython's
    [_PyUnicode_IsWhitespace] accepts. *)
Definition isspace (c : char) : bool :=
  ((9 <=? c) && (c <=? 13) || (28 <=? c) && (c <=? 32) ||
   (c =? 133) || (c =? 160) || (c =? 5760) ||
   (8192 <=? c) && (c <=? 8202) ||
   (c =? 8232) || (c =? 8233) || (c =? 8239) || (c =? 8287) ||
   (c =? 12288))%N.

Fixpoint lstrip (s : pystr) : pystr :=
  match s with
  | [] => []
  | c :: s' => if isspace c then lstrip s' else s
  end.

Definition rstrip (s : pystr) : pystr := reverse (lstrip (reverse s)).

(** [s.strip()]: leading and trailing whitespace removed. *)
Definition strip (s : pystr) : pystr := rstrip (lstrip s).

(** [s.split(sep, maxsplit)] for a separator [sep] of one code point;
    [maxsplit = None] is the unlimited split of [s.split(sep)]. The
    result is never the empty list. *)
Fixpoint split (sep : char) (maxsplit : option nat) (s : pystr) : list pystr :=
  match s with
  | [] => [[]]
  | c :: s' =>
      if (c =? sep)%N && negb (bool_decide (maxsplit = Some 0)) then
        [] :: split sep (Nat.pred <$> maxsplit) s'
      else
        match split sep maxsplit s' with
        | piece :: pieces => (c :: piece) :: pieces
        | [] => [[c]]
        end
  end.

(** The code points at which [str.splitlines] ends a line. *)
Definition islinebreak (c : char) : bool :=
  ((10 <=? c) && (c <=? 13) || (28 <=? c) && (c <=? 30) ||
   (c =? 133) || (c =? 8232) || (c =? 8233))%N.

(** [s.splitlines()]: the lines of [s] without their line ends; a
    carriage return followed by a line feed ends one line, and a line
    end at the end of [s] opens no further line. *)
Fixpoint splitlines (s : pystr) : list pystr :=
  match s with
  | [] => []
  | c :: s' =>
      if islinebreak c then
        match c, s' with
        | 13%N, 10%N :: s'' => [] :: splitlines s''
        | _, _ => [] :: splitlines s'
        end
      else
        match splitlines s' with
        | line :: lines => (c :: line) :: lines
        | [] => [[c]]
        end
  end.

End Str.
Export Str.

(** ** Python floats *)

Abbreviation float := Q (only parsing).

Definition Qltb (x y : Q) : bool := negb (Qle_bool y x).

(** Nearest integer, ties to the even neighbour. *)
Definition round_half_even (x : Q) : Z :=
  let f := Qfloor x in
  match (x - inject_Z f) ?= (1 # 2) with
  | Lt => f
  | Gt => (f + 1)%Z
  | Eq => if Z.even f then f else (f + 1)%Z
  end%Q.

(** [2 ** k] for an integer [k]. *)
Definition scale2 (k : Z) : Q :=
  if (0 <=? k)%Z then inject_Z (2 ^ k) else 1 # Z.to_pos (2 ^ (- k)).

(** The binary exponent of [x > 0]: the [e] with [2**e <= x < 2**(e+1)]. *)
Definition ilog2 (x : Q) : Z :=
  let c := (Z.log2 (Qnum x) - Z.log2 (Zpos (Qden x)))%Z in
  if Qle_bool (scale2 c) x then c else (c - 1)%Z.

(** The double nearest to [x > 0]: 53 significant bits, ties to even,
    exponents from -1022 (below it the doubles are equally spaced). *)
Definition fl_pos (x : Q) : Q :=
  let e := Z.max (ilog2 x) (-1022) in
  let q := scale2 (52 - e) in
  inject_Z (round_half_even (x * q)) / q.

(** The double nearest to [x]: the rounding of the result of a float
    operation.  (No overflow: the values rounded here are quotients of
    lengths and two-decimal numbers.) *)
Definition fl (x : Q) : Q :=
  match Qnum (Qred x) with
  | Z0 => 0
  | Zpos _ => Qred (fl_pos (Qred x))
  | Zneg _ => Qred (- fl_pos (- Qred x))
  end.

(** The double that the literal [0.2] denotes. *)
Definition float_0_2 : Q := 3602879701896397 # 18014398509481984.

(** [round(x, 2)]: the double nearest to [x] rounded to hundredths. *)
Definition round2 (x : Q) : Q := fl (inject_Z (round_half_even (x * 100)) / 100).

(** ** difflib.SequenceMatcher(None, a, b)

    The standard library class behind [ToolExecutor._score], after
    CPython's [Lib/difflib.py]: [isjunk] is [None] and [autojunk] is left
    at its default [True]. *)

Module difflib.

(** [Match(a=i, b=j, size=k)]. *)
Record Match := mkMatch { m_a : nat; m_b : nat; m_size : nat }.

(** Tuple comparison, as used by [matching_blocks.sort()]. *)
Definition Match_le (x y : Match) : Prop :=
  m_a x < m_a y \/
  (m_a x = m_a y /\ (m_b x < m_b y \/ (m_b x = m_b y /\ m_size x <= m_size y))).

#[global] Instance Match_le_dec x y : Decision (Match_le x y).
Proof. unfold Match_le. apply _. Defined.

(** [_calculate_ratio(matches, length)]: [2.0 * matches / length],
    the division rounded to the nearest double.  [matches] and
    [length] are lengths of strings, below [2**53]: their conversion to
    float and the product by [2.0] are exact. *)
Definition _calculate_ratio (matches length : nat) : Q :=
  if length =? 0 then 1
  else fl (2 * inject_Z (Z.of_nat matches) / inject_Z (Z.of_nat length))%Q.

Section SequenceMatcher.

(** [self.a], [self.b]. *)
Variables a b : pystr.

(** *** [__chain_b] *)

(** [indices = b2j.setdefault(elt, []); indices.append(i)]. *)
Definition chain_step (b2j : gmap char (list nat)) (ie : nat * char) : gmap char (list nat) :=
  <[ie.2 := default [] (b2j !! ie.2) ++ [ie.1]]> b2j.

(** [b2j] after the loop over [enumerate(b)]. *)
Definition b2j_all : gmap char (list nat) :=
  foldl chain_step ∅ (imap pair b).

(** [self.bjunk]: empty, since [isjunk] is [None]. *)
Definition bjunk : gset char := ∅.

Definition isbjunk (c : char) : bool := bool_decide (c ∈ bjunk).

(** [self.b2j]: with [autojunk] and [len(b) >= 200], every element
    with more than [n // 100 + 1] occurrences is popular and is
    deleted. *)
Definition b2j : gmap char (list nat) :=
  let n := length b in
  if 200 <=? n then
    let ntest := n / 100 + 1 in
    filter (fun p : char * list nat => length p.2 <= ntest) b2j_all
  else b2j_all.

(** *** [find_longest_match] *)

(** [j2len.get(j-1, 0)]; for [j = 0] the key [-1] is never present. *)
Definition j2lenget (j2len : gmap nat nat) (j : nat) : nat :=
  match j with
  | 0 => 0
  | S j' => default 0 (j2len !! j')
  end.

(** The loop [for j in b2j.get(a[i], nothing)] for one [i]. The best
    block so far is kept as a [Match]; [i-k+1] is written [i+1-k],
    which is the same integer since [k <= i+1]. *)
Fixpoint flm_inner (blo bhi i : nat) (j2len : gmap nat nat) (idxs : list nat)
    (best : Match) (newj2len : gmap nat nat) : Match * gmap nat nat :=
  match idxs with
  | [] => (best, newj2len)
  | j :: idxs' =>
      if j <? blo then flm_inner blo bhi i j2len idxs' best newj2len
      else if bhi <=? j then (best, newj2len)
      else
        let k := j2lenget j2len j + 1 in
        let newj2len := <[j := k]> newj2len in
        let best := if m_size best <? k then mkMatch (i + 1 - k) (j + 1 - k) k else best in
        flm_inner blo bhi i j2len idxs' best newj2len
  end.

(** One iteration of [for i in range(alo, ahi)]; the state is the
    best block and [j2len]. *)
Definition flm_row (blo bhi : nat) (st : Match * gmap nat nat) (i : nat) : Match * gmap nat nat :=
  flm_inner blo bhi i st.2 (default [] (b2j !! (a !!! i))) st.1 ∅.

(** [while besti > alo and bestj > blo and P(b[bestj-1]) and
    a[besti-1] == b[bestj-1]]: the block grows to the left. *)
Fixpoint extend_left (P : char -> bool) (alo blo besti bestj bestsize : nat) : Match :=
  match besti, bestj with
  | S i', S j' =>
      if (alo <? besti) && (blo <? bestj) && P (b !!! j') && N.eqb (a !!! i') (b !!! j')
      then extend_left P alo blo i' j' (S bestsize)
      else mkMatch besti bestj bestsize
  | _, _ => mkMatch besti bestj bestsize
  end.

(** [while besti+bestsize < ahi and bestj+bestsize < bhi and
    P(b[bestj+bestsize]) and a[besti+bestsize] == b[bestj+bestsize]]:
    the block grows to the right. [fuel] bounds the iterations; the
    caller passes [ahi - (besti+bestsize)], after which the first
    test of the loop fails. *)
Fixpoint extend_right (P : char -> bool) (ahi bhi besti bestj fuel bestsize : nat) : nat :=
  match fuel with
  | 0 => bestsize
  | S fuel' =>
      if (besti + bestsize <? ahi) && (bestj + bestsize <? bhi) &&
         P (b !!! (bestj + bestsize)) &&
         N.eqb (a !!! (besti + bestsize)) (b !!! (bestj + bestsize))
      then extend_right P ahi bhi besti bestj fuel' (S bestsize)
      else bestsize
  end.

Definition extend (P : char -> bool) (alo ahi blo bhi : nat) (best : Match) : Match :=
  let best := extend_left P alo blo (m_a best) (m_b best) (m_size best) in
  mkMatch (m_a best) (m_b best)
    (extend_right P ahi bhi (m_a best) (m_b best) (ahi - (m_a best + m_size best)) (m_size best)).

Definition find_longest_match (alo ahi blo bhi : nat) : Match :=
  let best := (foldl (flm_row blo bhi) (mkMatch alo blo 0, ∅) (seq alo (ahi - alo))).1 in
  (* extend by non-junk elements on each end *)
  let best := extend (fun c => negb (isbjunk c)) alo ahi blo bhi best in
  (* then by junk elements *)
  extend isbjunk alo ahi blo bhi best.

(** *** [get_matching_blocks] *)

(** The work list [queue]; the head of the list is the end of the
    Python list ([queue.pop()] takes it, [queue.append] puts one
    there).  The loop runs at most [2 * len(a) + 1] times
    ([gmb_loop_terminates] below); [None] is fuel run out. *)
Fixpoint gmb_loop (fuel : nat) (queue : list (nat * nat * nat * nat))
    (matching_blocks : list Match) : option (list Match) :=
  match queue with
  | [] => Some matching_blocks
  | (alo, ahi, blo, bhi) :: queue =>
      match fuel with
      | 0 => None
      | S fuel' =>
          let x := find_longest_match alo ahi blo bhi in
          let i := m_a x in
          let j := m_b x in
          let k := m_size x in
          if k =? 0 then gmb_loop fuel' queue matching_blocks
          else
            let matching_blocks := matching_blocks ++ [x] in
            let queue := if (alo <? i) && (blo <? j) then (alo, i, blo, j) :: queue else queue in
            let queue := if (i + k <? ahi) && (j + k <? bhi) then (i + k, ahi, j + k, bhi) :: queue else queue in
            gmb_loop fuel' queue matching_blocks
      end
  end.

(** One step of the loop that merges adjacent equal blocks; the
    state is [(i1, j1, k1)] and [non_adjacent]. *)
Definition collapse_step (st : Match * list Match) (x : Match) : Match * list Match :=
  let '(cur, non_adjacent) := st in
  if (m_a cur + m_size cur =? m_a x) && (m_b cur + m_size cur =? m_b x)
  then (mkMatch (m_a cur) (m_b cur) (m_size cur + m_size x), non_adjacent)
  else
    (x, if m_size cur =? 0 then non_adjacent else non_adjacent ++ [cur]).

Definition get_matching_blocks : list Match :=
  let la := length a in
  let lb := length b in
  let matching_blocks := default [] (gmb_loop (2 * la + 2) [(0, la, 0, lb)] []) in
  let matching_blocks := merge_sort Match_le matching_blocks in
  let '(cur, non_adjacent) := foldl collapse_step (mkMatch 0 0 0, []) matching_blocks in
  let non_adjacent := if m_size cur =? 0 then non_adjacent else non_adjacent ++ [cur] in
  non_adjacent ++ [mkMatch la lb 0].

(** [ratio()]. *)
Definition ratio : Q :=
  let matches := sum_list (m_size <$> get_matching_blocks) in
  _calculate_ratio matches (length a + length b).

End SequenceMatcher.

End difflib.

(** [f"{x:.2f}"]: sign, integer part, point, two decimals, the value
    rounded to the nearest hundredth with ties to even. *)
Definition format_2f (x : Q) : pystr :=
  let n := round_half_even (Qabs x * 100) in
  (if Qltb x 0 then py "-" else []) ++
  py (pretty (Z.to_N (n / 100))) ++ py "." ++
  py (pretty (Z.to_N ((n mod 100) / 10))) ++ py (pretty (Z.to_N (n mod 10))).

(** The line feed of a ["\n"] in a source literal. *)
Definition LF : pystr := [10%N].

(** ** agents/planner.py *)

Module planner.

Record TaskPlan := mkTaskPlan {
  task_type : pystr;
  tool_name : pystr;
  query : pystr;
  metadata : gmap pystr pystr
}.

(** One entry of [Planner._TASK_RULES]. *)
Record Rule := mkRule {
  rule_task_type : pystr;
  rule_tool : pystr;
  rule_keywords : list pystr
}.

Definition _TASK_RULES : list Rule := [
  mkRule (py "anomaly_diagnosis") (py "anomaly_diagnosis")
    [py "告警"; py "报警"; py "异常"; py "诊断"];
  mkRule (py "sop_lookup") (py "sop_lookup")
    [py "sop"; py "保全"; py "操作规程"; py "标准作业"; py "步骤"; py "检修"];
  mkRule (py "workorder_recommendation") (py "workorder_recommendation")
    [py "bom"; py "工单"; py "备件"; py "物料"; py "更换"; py "维修任务"]
].

(** [Planner(default_task="sop_lookup")]. *)
Record Planner := mkPlanner { default_task : pystr }.

Definition Planner_default : Planner := mkPlanner (py "sop_lookup").

Section Planner.

(** [str.lower]. *)
Variable lower : pystr -> pystr.

Definition _extract_query (request : pystr) : pystr := strip request.

(** The [markers] dict of [_estimate_priority], in insertion order. *)
Definition markers : list (pystr * pystr) := [
  (py "紧急", py "high");
  (py "立即", py "high");
  (py "尽快", py "high");
  (py "建议", py "standard");
  (py "优化", py "standard")
].

(** [for marker, level in markers.items(): if marker in normalized: return level]. *)
Fixpoint scan_markers (items : list (pystr * pystr)) (normalized : pystr) : option pystr :=
  match items with
  | [] => None
  | (marker, level) :: items' =>
      if contains marker normalized then Some level else scan_markers items' normalized
  end.

Definition _estimate_priority (request : pystr) : pystr :=
  let normalized := lower request in
  default (py "standard") (scan_markers markers normalized).

(** [[kw for kw in rule["keywords"] if kw.lower() in normalized]]. *)
Definition matched_keywords (rule : Rule) (normalized : pystr) : list pystr :=
  List.filter (fun kw => contains (lower kw) normalized) (rule_keywords rule).

(** The loop [for rule in self._TASK_RULES] of [plan]; [None] when
    it ends without returning. *)
Fixpoint scan_rules (rules : list Rule) (request normalized : pystr) : option TaskPlan :=
  match rules with
  | [] => None
  | rule :: rules' =>
      let matched := matched_keywords rule normalized in
      match matched with
      | _ :: _ =>
          Some (mkTaskPlan (rule_task_type rule) (rule_tool rule) (_extract_query request)
                  (<[py "matched_keywords" := join (py ",") matched]>
                   {[ py "priority" := _estimate_priority request ]}))
      | [] => scan_rules rules' request normalized
      end
  end.

Definition plan (self : Planner) (request : pystr) : TaskPlan :=
  let normalized := lower request in
  match scan_rules _TASK_RULES request normalized with
  | Some p => p
  | None =>
      mkTaskPlan (default_task self) (default_task self) (_extract_query request)
        (<[py "matched_keywords" := []]>
         (<[py "priority" := _estimate_priority request]>
          {[ py "reason" := py "fallback" ]}))
  end.

End Planner.

End planner.

(** ** agents/tools.py *)

Module tools.

Record RetrievalResult := mkRetrievalResult {
  task_type : pystr;
  query : pystr;
  context : pystr;
  source : pystr;
  score : Q;
  metadata : gmap pystr pystr
}.

(** The corpora [ToolExecutor.__init__] loads, each in load order. A
    record is a [Dict[str, str]], as the loaders are annotated: every
    value is a string. A row that [csv.DictReader] fills with [None]
    (a row shorter than the header) is not a state of this type, so what
    is stated here of a corpus is stated of string-valued records. *)
Record ToolExecutor := mkToolExecutor {
  _anomaly_entries : list (gmap pystr pystr);
  _sop_entries : list (gmap pystr pystr);
  _bom_entries : list (gmap pystr pystr)
}.

Section ToolExecutor.

Variable lower : pystr -> pystr.

Definition _score (query text : pystr) : Q :=
  if is_empty query || is_empty text then 0
  else difflib.ratio (lower query) (lower text).

(** [" ".join(entry[field] for field in fields if field in entry)]. *)
Definition field_text (entry : gmap pystr pystr) (fields : list pystr) : pystr :=
  join (py " ") (omap (fun field => entry !! field) fields).

(** One iteration of the loop of [_best_match] on
    [(best_entry, best_score)]. *)
Definition best_step (query : pystr) (fields : list pystr)
    (best : option (gmap pystr pystr) * Q) (entry : gmap pystr pystr)
    : option (gmap pystr pystr) * Q :=
  let text := field_text entry fields in
  let score := _score query text in
  if Qltb best.2 score then (Some entry, score) else best.

Definition _best_match (entries : list (gmap pystr pystr)) (query : pystr)
    (fields : list pystr) : option (gmap pystr pystr) * Q :=
  foldl (best_step query fields) (None, 0%Q) entries.

Definition _empty_result (plan : planner.TaskPlan) : RetrievalResult :=
  mkRetrievalResult (planner.task_type plan) (planner.query plan) ([]) ([]) 0
    {[ py "warning" := py "no matching entry" ]}.

(** [entry[key]] raises [KeyError] when the key is absent: the
    three tools return [None] then. *)
Definition _run_anomaly_tool (self : ToolExecutor) (plan : planner.TaskPlan)
    : option RetrievalResult :=
  let '(entry, score) :=
    _best_match (_anomaly_entries self) (planner.query plan)
      [py "symptom"; py "probable_causes"] in
  match entry with
  | None => Some (_empty_result plan)
  | Some entry =>
      alert_id ← entry !! py "alert_id";
      symptom ← entry !! py "symptom";
      probable_causes ← entry !! py "probable_causes";
      recommended_actions ← entry !! py "recommended_actions";
      let context :=
        py "告警 " ++ alert_id ++ py "：" ++ symptom ++ LF ++
        py "可能原因：" ++ probable_causes ++ LF ++
        py "推荐措施：" ++ recommended_actions in
      Some (mkRetrievalResult (planner.task_type plan) (planner.query plan) context
              (py "anomaly_diagnostics.csv#" ++ alert_id) score
              {[ py "alert_id" := alert_id ]})
  end.

Definition _run_sop_tool (self : ToolExecutor) (plan : planner.TaskPlan)
    : option RetrievalResult :=
  let '(entry, score) :=
    _best_match (_sop_entries self) (planner.query plan)
      [py "equipment"; py "issue"] in
  match entry with
  | None => Some (_empty_result plan)
  | Some entry =>
      equipment ← entry !! py "equipment";
      issue ← entry !! py "issue";
      sop_steps ← entry !! py "sop_steps";
      let context :=
        py "设备 " ++ equipment ++ py " 的问题：" ++ issue ++ LF ++
        py "SOP 步骤：" ++ sop_steps in
      Some (mkRetrievalResult (planner.task_type plan) (planner.query plan) context
              (py "sop_lookup.csv#" ++ equipment) score
              {[ py "equipment" := equipment ]})
  end.

Definition _run_bom_tool (self : ToolExecutor) (plan : planner.TaskPlan)
    : option RetrievalResult :=
  let '(entry, score) :=
    _best_match (_bom_entries self) (planner.query plan)
      [py "asset"; py "issue"] in
  match entry with
  | None => Some (_empty_result plan)
  | Some entry =>
      asset ← entry !! py "asset";
      issue ← entry !! py "issue";
      work_order ← entry !! py "work_order";
      advice ← entry !! py "advice";
      let context :=
        py "单元 " ++ asset ++ py " 的问题：" ++ issue ++ LF ++
        py "建议工单：" ++ work_order ++ LF ++
        py "执行建议：" ++ advice in
      Some (mkRetrievalResult (planner.task_type plan) (planner.query plan) context
              (py "bom_workorders.txt#" ++ asset) score
              (<[py "asset" := asset]> {[ py "work_order" := work_order ]}))
  end.

Definition execute (self : ToolExecutor) (plan : planner.TaskPlan)
    : option RetrievalResult :=
  let tool := planner.tool_name plan in
  if decide (tool = py "anomaly_diagnosis") then _run_anomaly_tool self plan
  else if decide (tool = py "sop_lookup") then _run_sop_tool self plan
  else if decide (tool = py "workorder_recommendation") then _run_bom_tool self plan
  else
    Some (mkRetrievalResult (planner.task_type plan) (planner.query plan) ([])
            (py "unknown") 0
            {[ py "error" := py "no tool named " ++ tool ]}).

End ToolExecutor.

(** The separators of a line of [bom_workorders.txt]: [|] between the
    fields, [:] after a label. *)
Definition BAR : char := 124%N.
Definition COLON : char := 58%N.

(** [parts[i]]: an index out of range raises. *)
Definition index (parts : list pystr) (i : nat) : option pystr := parts !! i.

(** The body of the loop of [_load_bom_corpus] for one line: the record
    it appends, [None] where it continues with the next line. *)
Definition bom_line (line : pystr) : option (option (gmap pystr pystr)) :=
  let stripped := strip line in
  if is_empty stripped || startswith (py "#") stripped then Some None
  else
    let parts := strip <$> split BAR None stripped in
    if (length parts <? 4)%nat then Some None
    else
      part2 ← index parts 2;
      work_order ← strip <$> last (split COLON (Some 1) part2);
      advice ←
        (if (4 <=? length parts)%nat then
           part3 ← index parts 3;
           strip <$> last (split COLON (Some 1) part3)
         else Some []);
      part0 ← index parts 0;
      part1 ← index parts 1;
      Some (Some (<[py "asset" := part0]>
                  (<[py "issue" := part1]>
                   (<[py "work_order" := work_order]>
                    {[ py "advice" := advice ]})))).

(** The loop over the lines, with the list [entries] built so far. *)
Fixpoint bom_lines (entries : list (gmap pystr pystr)) (lines : list pystr)
    : option (list (gmap pystr pystr)) :=
  match lines with
  | [] => Some entries
  | line :: lines' =>
      appended ← bom_line line;
      match appended with
      | Some entry => bom_lines (entries ++ [entry]) lines'
      | None => bom_lines entries lines'
      end
  end.

(** [_load_bom_corpus]: [file] is the text of [bom_workorders.txt] as
    [read_text] returns it, [None] when the path does not exist. *)
Definition _load_bom_corpus (file : option pystr) : option (list (gmap pystr pystr)) :=
  match file with
  | None => Some []
  | Some text => bom_lines [] (splitlines text)
  end.

End tools.

(** ** agents/solver.py *)

Module solver.

Record SolveResult := mkSolveResult {
  answer : pystr;
  plan : planner.TaskPlan;
  references : gmap pystr pystr;
  reasoning : pystr
}.

Definition _compose_answer (task_type : pystr) (retrieval : tools.RetrievalResult) : pystr :=
  let context := tools.context retrieval in
  if decide (task_type = py "anomaly_diagnosis") then
    py "【告警诊断结果】" ++ LF ++
    py "- 诊断要点：" ++ context ++ LF ++
    py "- 请按照推荐措施执行，并记录处理结果用于后续追踪。"
  else if decide (task_type = py "sop_lookup") then
    py "【SOP 建议】" ++ LF ++
    py "- 检索结果：" ++ context ++ LF ++
    py "- 请严格对照 SOP 步骤执行，并在执行单上完成签字确认。"
  else if decide (task_type = py "workorder_recommendation") then
    py "【工单推荐】" ++ LF ++
    py "- 推荐依据：" ++ context ++ LF ++
    py "- 若需停机，请提前与生产协调确认窗口。"
  else
    py "【通用响应】" ++ LF ++
    py "- 参考信息：" ++ context ++ LF ++
    py "- 建议复核需求类型以获取更准确建议。".

(** The answer of the branch [if not retrieval.context]. *)
Definition refusal : pystr := py "未检索到相关知识，请转人工或补充更多信息。".

(** [references.update(retrieval.metadata)] is the union that prefers
    the keys of [retrieval.metadata]. *)
Definition solve (plan : planner.TaskPlan) (retrieval : tools.RetrievalResult) : SolveResult :=
  let '(answer, references) :=
    if is_empty (tools.context retrieval) then (refusal, ∅)
    else
      (_compose_answer (planner.task_type plan) retrieval,
       tools.metadata retrieval ∪
       (<[py "source" := tools.source retrieval]>
        {[ py "score" := format_2f (tools.score retrieval) ]})) in
  let reasoning :=
    py "tool=" ++ planner.tool_name plan ++ py "; priority=" ++
    default (py "standard") (planner.metadata plan !! py "priority") in
  mkSolveResult answer plan references reasoning.

End solver.

(** ** agents/verifier.py *)

Module verifier.

Record VerificationResult := mkVerificationResult {
  passed : bool;
  answer : pystr;
  feedback : pystr;
  confidence : Q
}.

Definition verify (plan : planner.TaskPlan) (solve_result : solver.SolveResult)
    (retrieval : tools.RetrievalResult) : VerificationResult :=
  let has_context := negb (is_empty (tools.context retrieval)) in
  let answer_ok := negb (is_empty (strip (solver.answer solve_result))) in
  let passed := has_context && answer_ok in
  let feedback :=
    if passed then py "通过校验"
    else if negb has_context then py "缺少检索上下文，建议人工复核"
    else py "生成内容为空，建议重试" in
  let confidence :=
    if negb (Qeq_bool (tools.score retrieval) 0) then tools.score retrieval
    else if passed then float_0_2 else 0%Q in
  mkVerificationResult passed (solver.answer solve_result) feedback (round2 confidence).

End verifier.

(** * Vocabulary of the properties *)

(** [str.lower] on text whose cased letters are all ASCII: the
    instance of [lower] at which the properties are evaluated. *)
Definition ascii_lower (s : pystr) : pystr :=
  map (fun c => if (65 <=? c)%N && (c <=? 90)%N then (c + 32)%N else c) s.

(** A rule matches a request when one of its keywords, lower-cased,
    occurs in the lower-cased request. *)
Definition rule_matches (lower : pystr -> pystr) (rule : planner.Rule) (request : pystr) : Prop :=
  exists kw, kw ∈ planner.rule_keywords rule /\ substring (lower kw) (lower request).

(** The corpus and the searched fields that [execute] dispatches a tool
    name to; [None] for a name that is none of the three tools. *)
Definition tool_corpus (self : tools.ToolExecutor) (tool : pystr)
    : option (list (gmap pystr pystr) * list pystr) :=
  if decide (tool = py "anomaly_diagnosis") then
    Some (tools._anomaly_entries self, [py "symptom"; py "probable_causes"])
  else if decide (tool = py "sop_lookup") then
    Some (tools._sop_entries self, [py "equipment"; py "issue"])
  else if decide (tool = py "workorder_recommendation") then
    Some (tools._bom_entries self, [py "asset"; py "issue"])
  else None.

(** The keys that the tool of that name reads in the record it selects. *)
Definition tool_keys (tool : pystr) : list pystr :=
  if decide (tool = py "anomaly_diagnosis") then
    [py "alert_id"; py "symptom"; py "probable_causes"; py "recommended_actions"]
  else if decide (tool = py "sop_lookup") then
    [py "equipment"; py "issue"; py "sop_steps"]
  else if decide (tool = py "workorder_recommendation") then
    [py "asset"; py "issue"; py "work_order"; py "advice"]
  else [].

(** What [_best_match] returns for the corpus of the plan's tool. *)
Definition selected (lower : pystr -> pystr) (self : tools.ToolExecutor) (plan : planner.TaskPlan)
    : option (gmap pystr pystr) * Q :=
  match tool_corpus self (planner.tool_name plan) with
  | Some (entries, fields) => tools._best_match lower entries (planner.query plan) fields
  | None => (None, 0%Q)
  end.

(** The score of one record against a query. *)
Definition entry_score (lower : pystr -> pystr) (query : pystr) (fields : list pystr)
    (entry : gmap pystr pystr) : Q :=
  tools._score lower query (tools.field_text entry fields).

(** Record [e], at position [i] of [entries], is the first record of
    greatest score [s]: no record scores more, and every record before
    it scores less. *)
Definition first_greatest (lower : pystr -> pystr) (query : pystr) (fields : list pystr)
    (entries : list (gmap pystr pystr)) (i : nat) (e : gmap pystr pystr) (s : Q) : Prop :=
  entries !! i = Some e /\
  s = entry_score lower query fields e /\
  (0 < s)%Q /\
  (forall j ej, entries !! j = Some ej -> (entry_score lower query fields ej <= s)%Q) /\
  (forall j ej, j < i -> entries !! j = Some ej -> (entry_score lower query fields ej < s)%Q).

(** The result [r] is what the tool named [tool] builds from the record
    [e]: the context, the source and the metadata of [r] are made of
    the values of [e]. *)
Definition built_from (tool : pystr) (e : gmap pystr pystr) (r : tools.RetrievalResult) : Prop :=
  (tool = py "anomaly_diagnosis" /\
   exists alert_id symptom probable_causes recommended_actions,
     e !! py "alert_id" = Some alert_id /\
     e !! py "symptom" = Some symptom /\
     e !! py "probable_causes" = Some probable_causes /\
     e !! py "recommended_actions" = Some recommended_actions /\
     tools.context r =
       py "告警 " ++ alert_id ++ py "：" ++ symptom ++ LF ++
       py "可能原因：" ++ probable_causes ++ LF ++
       py "推荐措施：" ++ recommended_actions /\
     tools.source r = py "anomaly_diagnostics.csv#" ++ alert_id /\
     tools.metadata r = {[ py "alert_id" := alert_id ]}) \/
  (tool = py "sop_lookup" /\
   exists equipment issue sop_steps,
     e !! py "equipment" = Some equipment /\
     e !! py "issue" = Some issue /\
     e !! py "sop_steps" = Some sop_steps /\
     tools.context r =
       py "设备 " ++ equipment ++ py " 的问题：" ++ issue ++ LF ++
       py "SOP 步骤：" ++ sop_steps /\
     tools.source r = py "sop_lookup.csv#" ++ equipment /\
     tools.metadata r = {[ py "equipment" := equipment ]}) \/
  (tool = py "workorder_recommendation" /\
   exists asset issue work_order advice,
     e !! py "asset" = Some asset /\
     e !! py "issue" = Some issue /\
     e !! py "work_order" = Some work_order /\
     e !! py "advice" = Some advice /\
     tools.context r =
       py "单元 " ++ asset ++ py " 的问题：" ++ issue ++ LF ++
       py "建议工单：" ++ work_order ++ LF ++
       py "执行建议：" ++ advice /\
     tools.source r = py "bom_workorders.txt#" ++ asset /\
     tools.metadata r = <[py "asset" := asset]> {[ py "work_order" := work_order ]}).

(** [b[j] == c], false out of range. *)
Definition is_at (b : pystr) (c : char) (j : nat) : bool :=
  match b !! j with
  | Some d => N.eqb d c
  | None => false
  end.

(** The positions of [c] in [b], ascending. *)
Definition indices_of (b : pystr) (c : char) : list nat :=
  List.filter (is_at b c) (seq 0 (length b)).

(** [c] is a key of [b2j]: it occurs in [b] and is not popular. *)
Definition keyed (b : pystr) (c : char) : bool :=
  match difflib.b2j b !! c with
  | Some _ => true
  | None => false
  end.

(** Length of the run of keyed elements of [b] that ends just before
    position [j], and of the run that ends at [j]. *)
Fixpoint run_prev (b : pystr) (j : nat) : nat :=
  match j with
  | 0 => 0
  | S j' => if keyed b (b !!! j') then S (run_prev b j') else 0
  end.

Definition run (b : pystr) (j : nat) : nat := run_prev b (S j).

(** [newj2len] after the inner loop of [find_longest_match] has visited
    the positions [idxs], all of them in the window. *)
Definition visited (j2len : gmap nat nat) (idxs : list nat) (new : gmap nat nat) : gmap nat nat :=
  foldl (fun m j => <[j := difflib.j2lenget j2len j + 1]> m) new idxs.

(** The state of the main loop of [find_longest_match] before row [i]
    when both sequences are [s] and the window is all of it: the best
    block is on the diagonal and at least as long as every run of keyed
    elements seen, and [j2len] is bounded by the runs and exact on the
    diagonal. *)
Definition diag_inv (s : pystr) (i : nat) (st : difflib.Match * gmap nat nat) : Prop :=
  difflib.m_a st.1 = difflib.m_b st.1 /\
  difflib.m_a st.1 + difflib.m_size st.1 <= i /\
  (forall i', i' < i -> run s i' <= difflib.m_size st.1) /\
  (forall j, difflib.j2lenget st.2 j <= run_prev s j /\
             difflib.j2lenget st.2 j <= run_prev s i) /\
  difflib.j2lenget st.2 i = run_prev s i.

(** The block [best] lies in the window and ends at or before row [i];
    every entry of [j2len] is the length of a run that fits in the window
    before row [i]. *)
Definition row_inv (alo blo bhi i : nat) (st : difflib.Match * gmap nat nat) : Prop :=
  alo <= difflib.m_a st.1 /\ blo <= difflib.m_b st.1 /\
  difflib.m_a st.1 + difflib.m_size st.1 <= i /\ difflib.m_b st.1 + difflib.m_size st.1 <= bhi /\
  forall j v, st.2 !! j = Some v -> blo <= j /\ j < bhi /\ v <= j + 1 - blo /\ v <= i - alo.

(** Width of a window in [a] and in [b]. *)
Definition width_a (w : nat * nat * nat * nat) : nat := w.1.1.2 - w.1.1.1.
Definition width_b (w : nat * nat * nat * nat) : nat := w.2 - w.1.2.
Definition window_ok (w : nat * nat * nat * nat) : Prop := w.1.1.1 <= w.1.1.2 /\ w.1.2 <= w.2.

(** The number of occurrences of the code point [c] in [s]. *)
Definition occurrences (c : char) (s : pystr) : nat :=
  length (filter (fun x => x = c) s).

(** The record of the work-order corpus with these four values. *)
Definition bom_record (asset issue work_order advice : pystr) : gmap pystr pystr :=
  <[py "asset" := asset]>
  (<[py "issue" := issue]>
   (<[py "work_order" := work_order]>
    {[ py "advice" := advice ]})).

(** The lines of [bom_workorders.txt] that give a record: not blank,
    not a comment, and with at least three [|]. *)
Definition bom_loadable (line : pystr) : bool :=
  negb (is_empty (strip line)) && negb (startswith (py "#") (strip line)) &&
  (3 <=? occurrences tools.BAR line)%nat.

(** ** Sample data at which the properties are evaluated *)

Definition sample_alert (alert_id symptom causes actions : pystr) : gmap pystr pystr :=
  <[py "alert_id" := alert_id]>
    (<[py "symptom" := symptom]>
       (<[py "probable_causes" := causes]> {[ py "recommended_actions" := actions ]})).

(** Two diagnostics records with the same symptom and causes. *)
Definition sample_alerts : list (gmap pystr pystr) := [
  sample_alert (py "A-01") (py "伺服电机振动") (py "轴承磨损") (py "更换轴承");
  sample_alert (py "A-02") (py "伺服电机振动") (py "轴承磨损") (py "紧固螺栓")
].

Definition sample_executor : tools.ToolExecutor := tools.mkToolExecutor sample_alerts [] [].

Definition sample_request : pystr := py "告警：伺服电机振动，按sop步骤处理".

Definition sample_plan : planner.TaskPlan :=
  planner.plan ascii_lower planner.Planner_default sample_request.

Definition sample_retrieval : tools.RetrievalResult :=
  tools.mkRetrievalResult (py "sop_lookup") (py "q") (py "设备 P-3 的问题：漏油") (py "sop_lookup.csv#P-3")
    (3 # 4) ∅.

Definition sample_empty_retrieval : tools.RetrievalResult :=
  tools._empty_result sample_plan.

(** A record whose symptom and causes are the words of a request. *)
Definition sample_exact_alert : gmap pystr pystr :=
  sample_alert (py "A-09") (py "告警") (py "轴承磨损") (py "更换轴承").

Definition sample_exact_executor : tools.ToolExecutor :=
  tools.mkToolExecutor [sample_exact_alert] [] [].

Definition sample_exact_plan : planner.TaskPlan :=
  planner.plan ascii_lower planner.Planner_default (py "告警 轴承磨损").

(** A work-order file of one comment line and one record line. *)
Definition sample_bom_text : pystr :=
  py "# asset|issue|work order|advice" ++ LF ++
  py "PUMP-01 | seal leak | WO: WO-1001 | advice: replace the seal".

(** * Properties *)

(** ** Evaluation on the documented examples *)

Example py_ascii : py "sop" = [115; 111; 112]%N.
Proof. vm_compute. reflexivity. Qed.

Example py_cjk : py "告警" = [21578; 35686]%N.
Proof. vm_compute. reflexivity. Qed.

Example py_mixed : py "SOP 步骤：x" = [83; 79; 80; 32; 27493; 39588; 65306; 120]%N.
Proof. vm_compute. reflexivity. Qed.

Example strip_example : strip (py "  a b ") = py "a b".
Proof. vm_compute. reflexivity. Qed.

Example contains_example : contains (py "cd") (py "abcde") = true /\ contains (py "ce") (py "abcde") = false.
Proof. split; vm_compute; reflexivity. Qed.

Example flm_doc : difflib.find_longest_match (py " abcd") (py "abcd abcd") 0 5 0 9 = difflib.mkMatch 0 4 5.
Proof. vm_compute. reflexivity. Qed.

Example flm_doc_none : difflib.find_longest_match (py "ab") (py "c") 0 2 0 1 = difflib.mkMatch 0 0 0.
Proof. vm_compute. reflexivity. Qed.

Example gmb_doc :
  difflib.get_matching_blocks (py "abxcd") (py "abcd")
  = [difflib.mkMatch 0 0 2; difflib.mkMatch 3 2 2; difflib.mkMatch 5 4 0].
Proof. vm_compute. reflexivity. Qed.

Example ratio_doc : (difflib.ratio (py "abcd") (py "bcde") == 3 # 4)%Q.
Proof. vm_compute. reflexivity. Qed.

Example gmb_autojunk :
  difflib.get_matching_blocks
    (concat (replicate 100 (py "ab")) ++ py "xyz") (concat (replicate 100 (py "ba")) ++ py "xyq")
  = [difflib.mkMatch 200 200 2; difflib.mkMatch 203 203 0].
Proof. vm_compute. reflexivity. Qed.

Example score_cjk :
  tools._score ascii_lower (py "告警：伺服电机振动，按SOP步骤处理") (py "伺服电机振动 轴承磨损")
  = (7454233865992545 # 18014398509481984)%Q.
Proof. vm_compute. reflexivity. Qed.

Example fl_examples :
  (fl (1 # 10) == 3602879701896397 # 36028797018963968)%Q /\
  (fl (1 # 3) == 6004799503160661 # 18014398509481984)%Q /\
  (fl (2 # 3) == 6004799503160661 # 9007199254740992)%Q /\
  (fl (2 # 10) == float_0_2)%Q /\
  (fl (58 # 67) == 7797276966790709 # 9007199254740992)%Q /\
  (fl (1 # 200) == 5764607523034235 # 1152921504606846976)%Q /\
  (fl (3 # 4) == 3 # 4)%Q /\ (fl (- (1 # 3)) == - (6004799503160661 # 18014398509481984))%Q.
Proof. vm_compute. tauto. Qed.

Example round2_examples :
  (round2 (fl (1 # 200)) == fl (1 # 100))%Q /\ (round2 (1 # 8) == fl (12 # 100))%Q /\
  (round2 (fl (58 # 67)) == 7836263351624663 # 9007199254740992)%Q /\
  (round2 (- (1 # 2)) == - (1 # 2))%Q.
Proof. vm_compute. tauto. Qed.

Example format_2f_examples :
  format_2f (3 # 4) = py "0.75" /\ format_2f 1 = py "1.00" /\
  format_2f (1 # 8) = py "0.12" /\ format_2f (2 # 3) = py "0.67".
Proof. vm_compute. auto. Qed.

(** ** Strings *)

Lemma startswith_spec p s : startswith p s = true <-> exists post, s = p ++ post.
Proof.
  revert s. induction p as [|x p IH]; intros s; simpl.
  - split; [intros _; by exists s | done].
  - destruct s as [|y s].
    + split; [done | intros [post H]; discriminate H].
    + rewrite andb_true_iff, N.eqb_eq, IH. split.
      * intros [-> [post ->]]. by exists post.
      * intros [post H]. injection H as -> ->. eauto.
Qed.

Lemma contains_spec sub s : contains sub s = true <-> substring sub s.
Proof.
  unfold substring. induction s as [|c s IH].
  - simpl. rewrite orb_false_r, startswith_spec. split.
    + intros [post H]. by exists [], post.
    + intros [pre [post H]]. destruct pre; [by exists post | discriminate H].
  - cbn [contains]. rewrite orb_true_iff, IH, startswith_spec. split.
    + intros [[post H] | [pre [post H]]].
      * by exists [], post.
      * exists (c :: pre), post. by rewrite H.
    + intros [[|c' pre] [post H]].
      * left. by exists post.
      * right. injection H as -> ->. by exists pre, post.
Qed.

Lemma contains_false sub s : contains sub s = false <-> ~ substring sub s.
Proof. rewrite <- contains_spec. by destruct (contains sub s). Qed.

Lemma lstrip_keeps c s : c ∈ s -> isspace c = false -> c ∈ lstrip s.
Proof.
  intros Hin Hc. induction s as [|d s IH]; [done|].
  simpl. destruct (isspace d) eqn:Hd; [|done].
  apply elem_of_cons in Hin as [-> | Hin]; [congruence | auto].
Qed.

Lemma strip_keeps c s : c ∈ s -> isspace c = false -> c ∈ strip s.
Proof.
  intros Hin Hc. unfold strip, rstrip.
  rewrite elem_of_reverse. apply lstrip_keeps; [|done].
  rewrite elem_of_reverse. by apply lstrip_keeps.
Qed.

Lemma lstrip_all_space s : Forall (fun c => isspace c = true) s -> lstrip s = [].
Proof. induction 1 as [|c s Hc _ IH]; [done|]. simpl. by rewrite Hc. Qed.

Lemma strip_all_space s : Forall (fun c => isspace c = true) s -> strip s = [].
Proof. intros H. unfold strip, rstrip. by rewrite (lstrip_all_space s H). Qed.

(** ** Planner *)

Section PlannerProperties.

Variable lower : pystr -> pystr.

Lemma matched_keywords_nil rule request :
  planner.matched_keywords lower rule (lower request) = [] <-> ~ rule_matches lower rule request.
Proof.
  unfold planner.matched_keywords, rule_matches. split.
  - intros Hnil [kw [Hin Hsub]].
    assert (kw ∈ List.filter (fun kw => contains (lower kw) (lower request)) (planner.rule_keywords rule)) as H.
    { apply list_elem_of_In, filter_In. split; [by apply list_elem_of_In | by apply contains_spec]. }
    rewrite Hnil in H. by apply elem_of_nil in H.
  - intros Hno.
    destruct (List.filter _ _) as [|kw l] eqn:Hf; [done|]. exfalso. apply Hno.
    assert (In kw (List.filter (fun kw => contains (lower kw) (lower request)) (planner.rule_keywords rule))) as H
      by (rewrite Hf; by left).
    apply filter_In in H as [Hin Hc]. exists kw. split; [by apply list_elem_of_In | by apply contains_spec].
Qed.

Lemma scan_rules_query rules request normalized p :
  planner.scan_rules lower rules request normalized = Some p ->
  planner.query p = strip request.
Proof.
  induction rules as [|rule rules IH]; simpl; [done|].
  destruct (planner.matched_keywords lower rule normalized); [done|].
  by intros [= <-].
Qed.

Lemma plan_query self request :
  planner.query (planner.plan lower self request) = strip request.
Proof.
  unfold planner.plan.
  destruct (planner.scan_rules lower planner._TASK_RULES request (lower request)) eqn:H.
  - by eapply scan_rules_query.
  - done.
Qed.

(** The first matching rule of a rule list decides the plan. *)
Lemma scan_rules_first rules request i rule :
  rules !! i = Some rule ->
  rule_matches lower rule request ->
  (forall i' rule', i' < i -> rules !! i' = Some rule' -> ~ rule_matches lower rule' request) ->
  exists p, planner.scan_rules lower rules request (lower request) = Some p /\
            planner.task_type p = planner.rule_task_type rule /\
            planner.tool_name p = planner.rule_tool rule.
Proof.
  revert i. induction rules as [|r rules IH]; intros i Hi Hm Hfirst; [done|].
  simpl. destruct i as [|i].
  - injection Hi as ->.
    destruct (planner.matched_keywords lower rule (lower request)) eqn:Hk.
    + by apply matched_keywords_nil in Hk.
    + eauto.
  - assert (planner.matched_keywords lower r (lower request) = []) as ->.
    { apply matched_keywords_nil. apply (Hfirst 0 r); [lia | done]. }
    apply (IH i); [done | done |].
    intros i' rule' Hlt Hl. apply (Hfirst (S i') rule'); [lia | done].
Qed.

Lemma scan_rules_none rules request :
  (forall rule, rule ∈ rules -> ~ rule_matches lower rule request) ->
  planner.scan_rules lower rules request (lower request) = None.
Proof.
  induction rules as [|r rules IH]; intros Hno; [done|]. simpl.
  assert (planner.matched_keywords lower r (lower request) = []) as ->.
  { apply matched_keywords_nil, Hno. by left. }
  apply IH. intros rule Hin. apply Hno. by right.
Qed.

End PlannerProperties.

Lemma first_match_exists (lower : pystr -> pystr) (rules : list planner.Rule) request i rule :
  rules !! i = Some rule ->
  rule_matches lower rule request ->
  exists i' rule', i' <= i /\ rules !! i' = Some rule' /\ rule_matches lower rule' request /\
    forall i'' rule'', i'' < i' -> rules !! i'' = Some rule'' -> ~ rule_matches lower rule'' request.
Proof.
  revert i. induction rules as [|r rules IH]; intros i Hi Hm; [done|].
  destruct (planner.matched_keywords lower r (lower request)) as [|kw0 kws] eqn:Hk.
  - apply matched_keywords_nil in Hk. destruct i as [|i]; [by injection Hi as -> |].
    destruct (IH i Hi Hm) as (i' & rule' & Hle & Hl & Hm' & Hmin).
    exists (S i'), rule'. repeat split; [lia | done | done |].
    intros [|i''] rule'' Hlt Hl''; [by injection Hl'' as <- |].
    apply (Hmin i''); [lia | done].
  - exists 0, r. repeat split; [lia | |lia].
    assert (In kw0 (planner.matched_keywords lower r (lower request))) as Hin
      by (rewrite Hk; by left).
    apply filter_In in Hin as [Hin Hc].
    exists kw0. split; [by apply list_elem_of_In | by apply contains_spec].
Qed.

Lemma task_types_distinct i j ri rj :
  i <> j ->
  planner._TASK_RULES !! i = Some ri -> planner._TASK_RULES !! j = Some rj ->
  planner.rule_task_type ri <> planner.rule_task_type rj.
Proof.
  intros Hne Hi Hj.
  destruct i as [|[|[|i]]]; destruct j as [|[|[|j]]]; try done;
    injection Hi as <-; injection Hj as <-; intros H; vm_compute in H; discriminate H.
Qed.

(** C4: the rule list is scanned in declaration order and the first rule
    with a keyword occurring in the lower-cased request decides the plan;
    when two rules match, the plan is that of the earliest matching rule
    and never that of the later one; a request with an anomaly keyword is
    classified [anomaly_diagnosis] whatever other keywords it has. *)
Theorem plan_rule_precedence (lower : pystr -> pystr) (self : planner.Planner) (request : pystr) :
  (forall i rule,
     planner._TASK_RULES !! i = Some rule ->
     rule_matches lower rule request ->
     (forall i' rule', i' < i -> planner._TASK_RULES !! i' = Some rule' ->
                       ~ rule_matches lower rule' request) ->
     planner.task_type (planner.plan lower self request) = planner.rule_task_type rule /\
     planner.tool_name (planner.plan lower self request) = planner.rule_tool rule) /\
  (forall i j ri rj,
     i < j ->
     planner._TASK_RULES !! i = Some ri -> planner._TASK_RULES !! j = Some rj ->
     rule_matches lower ri request -> rule_matches lower rj request ->
     exists i' r', i' <= i /\ planner._TASK_RULES !! i' = Some r' /\
       rule_matches lower r' request /\
       planner.task_type (planner.plan lower self request) = planner.rule_task_type r' /\
       planner.task_type (planner.plan lower self request) <> planner.rule_task_type rj) /\
  ((exists kw, kw ∈ [py "告警"; py "报警"; py "异常"; py "诊断"] /\
               substring (lower kw) (lower request)) ->
   planner.task_type (planner.plan lower self request) = py "anomaly_diagnosis").
Proof.
  assert (forall i rule,
     planner._TASK_RULES !! i = Some rule ->
     rule_matches lower rule request ->
     (forall i' rule', i' < i -> planner._TASK_RULES !! i' = Some rule' ->
                       ~ rule_matches lower rule' request) ->
     planner.task_type (planner.plan lower self request) = planner.rule_task_type rule /\
     planner.tool_name (planner.plan lower self request) = planner.rule_tool rule) as Hfirst.
  { intros i rule Hi Hm Hmin.
    destruct (scan_rules_first lower _ _ _ _ Hi Hm Hmin) as (p & Hp & Ht & Hn).
    unfold planner.plan. by rewrite Hp. }
  split; [exact Hfirst|]. split.
  - intros i j ri rj Hlt Hi Hj Hmi Hmj.
    destruct (first_match_exists lower _ _ _ _ Hi Hmi) as (i' & r' & Hle & Hl & Hm' & Hmin).
    exists i', r'. destruct (Hfirst i' r' Hl Hm' Hmin) as [Ht _].
    repeat split; [done | done | done | done |].
    rewrite Ht. apply (task_types_distinct i' j); [lia | done | done].
  - intros Hm.
    apply (Hfirst 0 (planner.mkRule (py "anomaly_diagnosis") (py "anomaly_diagnosis")
                       [py "告警"; py "报警"; py "异常"; py "诊断"])); [done | exact Hm | lia].
Qed.

(** C7, as the code has it: the query is the stripped request, and it is
    non-empty as soon as the request has a character that is not
    whitespace. *)
Theorem plan_query_nonempty (lower : pystr -> pystr) (self : planner.Planner) (request : pystr) :
  (exists c, c ∈ request /\ isspace c = false) ->
  planner.query (planner.plan lower self request) = strip request /\
  planner.query (planner.plan lower self request) <> [].
Proof.
  intros (c & Hin & Hc). rewrite plan_query. split; [done|].
  intros Hnil. pose proof (strip_keeps c request Hin Hc) as H.
  rewrite Hnil in H. by apply elem_of_nil in H.
Qed.

(** C7 fails as stated at the request [" "]: it is not empty, and the
    query of its plan is. *)
Lemma plan_query_empty_for_blank_request :
  py " " <> [] /\
  planner.query (planner.plan ascii_lower planner.Planner_default (py " ")) = [].
Proof. split; [done | by vm_compute]. Qed.

(** ** Solver *)

Lemma substring_middle (pre s post : pystr) : substring s (pre ++ s ++ post).
Proof. by exists pre, post. Qed.

Lemma compose_answer_contains task_type retrieval :
  substring (tools.context retrieval) (solver._compose_answer task_type retrieval).
Proof.
  unfold solver._compose_answer.
  repeat case_decide;
    match goal with
    | |- substring ?c (?h ++ LF ++ ?l ++ ?c ++ ?t) =>
        replace (h ++ LF ++ l ++ c ++ t) with ((h ++ LF ++ l) ++ c ++ t)
          by (by rewrite <- !app_assoc);
        apply substring_middle
    end.
Qed.

(** C8: when the retrieved context is not empty, the answer of [solve]
    contains it as a contiguous substring, for every task type. *)
Theorem solve_answer_contains_context (plan : planner.TaskPlan) (retrieval : tools.RetrievalResult) :
  tools.context retrieval <> [] ->
  substring (tools.context retrieval) (solver.answer (solver.solve plan retrieval)).
Proof.
  intros Hctx. unfold solver.solve.
  destruct (tools.context retrieval) as [|c ctx] eqn:Hc; [done|].
  simpl. rewrite <- Hc. apply compose_answer_contains.
Qed.

(** C9: when the retrieved context is empty, [solve] returns the fixed
    refusal answer and no references; [solve] is a total function, so it
    returns for every plan and retrieval result. *)
Theorem solve_empty_context_refusal (plan : planner.TaskPlan) (retrieval : tools.RetrievalResult) :
  tools.context retrieval = [] ->
  solver.answer (solver.solve plan retrieval) = py "未检索到相关知识，请转人工或补充更多信息。" /\
  solver.references (solver.solve plan retrieval) = ∅ /\
  solver.plan (solver.solve plan retrieval) = plan.
Proof. intros Hctx. unfold solver.solve. by rewrite Hctx. Qed.

(** ** Floats *)

Lemma Qltb_lt x y : Qltb x y = true <-> (x < y)%Q.
Proof.
  unfold Qltb. rewrite negb_true_iff. split.
  - intros H. apply Qnot_le_lt. intros Hle. apply Qle_bool_iff in Hle. congruence.
  - intros H. destruct (Qle_bool y x) eqn:E; [|done].
    apply Qle_bool_iff in E. exfalso. by apply (Qlt_not_le x y).
Qed.

Lemma Qltb_ge x y : Qltb x y = false <-> (y <= x)%Q.
Proof.
  unfold Qltb. rewrite negb_false_iff. apply Qle_bool_iff.
Qed.

Lemma round_half_even_nonneg y : (0 <= y)%Q -> (0 <= round_half_even y)%Z.
Proof.
  intros Hy. unfold round_half_even.
  assert (0 <= Qfloor y)%Z as Hf by (change 0%Z with (Qfloor 0); by apply Qfloor_resp_le).
  destruct (_ ?= _)%Q; [destruct (Z.even _)| |]; lia.
Qed.

Lemma round_half_even_le_int y (N : Z) : (y <= inject_Z N)%Q -> (round_half_even y <= N)%Z.
Proof.
  intros Hy. unfold round_half_even.
  pose proof (Qfloor_le y) as Hlo.
  assert (Qfloor y <= N)%Z as Hf.
  { rewrite Zle_Qle. by eapply Qle_trans. }
  assert ((1 # 2 <= y - inject_Z (Qfloor y))%Q -> (Qfloor y + 1 <= N)%Z) as Hup.
  { intros Hhalf. assert (Qfloor y < N)%Z; [|lia]. rewrite Zlt_Qlt. lra. }
  destruct (Qcompare_spec (y - inject_Z (Qfloor y)) (1 # 2)) as [He | Hl | Hg].
  - destruct (Z.even _); [done|]. apply Hup. lra.
  - done.
  - apply Hup. lra.
Qed.

Lemma fl_proper x y : (x == y)%Q -> fl x = fl y.
Proof. intros H. unfold fl. by rewrite (Qred_complete x y H). Qed.

Lemma scale2_nonneg_exp k : (0 <= k)%Z -> scale2 k = inject_Z (2 ^ k).
Proof. intros H. unfold scale2. by rewrite (proj2 (Z.leb_le 0 k)). Qed.

Lemma scale2_pos k : (0 < scale2 k)%Q.
Proof.
  unfold scale2. destruct (0 <=? k)%Z eqn:E; [|done].
  apply Z.leb_le in E. change 0%Q with (inject_Z 0). rewrite <- Zlt_Qlt.
  by apply Z.pow_pos_nonneg.
Qed.

Lemma ilog2_nonpos x : (0 < x)%Q -> (x <= 1)%Q -> (ilog2 x <= 0)%Z.
Proof.
  intros Hpos Hle. unfold ilog2.
  assert (Z.log2 (Qnum x) <= Z.log2 (Z.pos (Qden x)))%Z as Hlog.
  { apply Z.log2_le_mono. unfold Qle in Hle. simpl in Hle. lia. }
  destruct (Qle_bool _ _); lia.
Qed.

Lemma fl_pos_bounds x : (0 < x)%Q -> (x <= 1)%Q -> (0 <= fl_pos x <= 1)%Q.
Proof.
  intros Hpos Hle. unfold fl_pos.
  pose proof (ilog2_nonpos x Hpos Hle) as He.
  set (k := (52 - Z.max (ilog2 x) (-1022))%Z).
  assert (0 <= k)%Z as Hk by lia.
  pose proof (scale2_pos k) as Hq.
  rewrite (scale2_nonneg_exp k Hk) in Hq |- *.
  set (q := inject_Z (2 ^ k)) in *.
  assert (0 <= round_half_even (x * q))%Z as Hn.
  { apply round_half_even_nonneg. apply Qmult_le_0_compat; by apply Qlt_le_weak. }
  assert (round_half_even (x * q) <= 2 ^ k)%Z as Hm.
  { apply round_half_even_le_int. fold q.
    rewrite <- (Qmult_1_l q) at 2.
    apply Qmult_le_compat_r; [done | by apply Qlt_le_weak]. }
  split.
  - apply Qle_shift_div_l; [done|]. rewrite Qmult_0_l.
    change 0%Q with (inject_Z 0). by rewrite <- Zle_Qle.
  - apply Qle_shift_div_r; [done|]. rewrite Qmult_1_l. unfold q.
    by rewrite <- Zle_Qle.
Qed.

(** Rounding keeps a value of [0, 1] in [0, 1]. *)
Lemma fl_bounds x : (0 <= x <= 1)%Q -> (0 <= fl x <= 1)%Q.
Proof.
  intros [Hlo Hhi]. unfold fl.
  pose proof (Qred_correct x) as Hred.
  destruct (Qred x) as [p d] eqn:Hx. simpl.
  destruct p as [|p|p].
  - split; discriminate.
  - rewrite Qred_correct. apply fl_pos_bounds; [unfold Qlt; simpl; lia | by rewrite Hred].
  - exfalso. rewrite <- Hred in Hlo. unfold Qle in Hlo. simpl in Hlo. lia.
Qed.

Lemma fl_one x : (x == 1)%Q -> fl x = 1%Q.
Proof. intros H. rewrite (fl_proper x 1 H). by vm_compute. Qed.

Lemma round2_hundredths x : round2 x = fl (round_half_even (x * 100) # 100).
Proof. unfold round2. apply fl_proper. unfold Qdiv, Qeq. simpl. lia. Qed.

(** ** Verifier *)

Lemma is_empty_false (s : pystr) : is_empty s = false <-> s <> [].
Proof. by destruct s. Qed.

(** C5: [passed] is the conjunction of a non-empty context and a
    non-empty stripped answer; and for a retrieval score that is not
    negative (the score of a [RetrievalResult] is a similarity in
    [0, 1]) the confidence is the retrieval score when that score is
    greater than 0, else 0.2 when [passed], else 0.0; in every case it
    is rounded to hundredths (it is the double nearest to a multiple of
    0.01; 0.2 and 0.0 round to themselves). *)
Theorem verify_passed_and_confidence (plan : planner.TaskPlan) (solve_result : solver.SolveResult)
    (retrieval : tools.RetrievalResult) :
  (verifier.passed (verifier.verify plan solve_result retrieval) = true <->
     tools.context retrieval <> [] /\ strip (solver.answer solve_result) <> []) /\
  ((0 <= tools.score retrieval)%Q ->
     verifier.confidence (verifier.verify plan solve_result retrieval)
     = round2 (if Qltb 0 (tools.score retrieval) then tools.score retrieval
               else if verifier.passed (verifier.verify plan solve_result retrieval)
                    then float_0_2 else 0)) /\
  ((0 < tools.score retrieval)%Q ->
     verifier.confidence (verifier.verify plan solve_result retrieval)
     = round2 (tools.score retrieval)) /\
  ((0 <= tools.score retrieval)%Q -> ~ (0 < tools.score retrieval)%Q ->
     verifier.confidence (verifier.verify plan solve_result retrieval)
     = round2 (if verifier.passed (verifier.verify plan solve_result retrieval)
               then float_0_2 else 0)) /\
  (round2 float_0_2 == float_0_2)%Q /\ (round2 0 == 0)%Q /\
  (exists n : Z, verifier.confidence (verifier.verify plan solve_result retrieval) = fl (n # 100)).
Proof.
  assert (~ (tools.score retrieval == 0)%Q ->
     verifier.confidence (verifier.verify plan solve_result retrieval)
     = round2 (tools.score retrieval)) as Hnz.
  { intros Hs. unfold verifier.verify. simpl.
    destruct (Qeq_bool (tools.score retrieval) 0) eqn:E; [|done].
    by apply Qeq_bool_iff in E. }
  assert ((tools.score retrieval == 0)%Q ->
     verifier.confidence (verifier.verify plan solve_result retrieval)
     = round2 (if verifier.passed (verifier.verify plan solve_result retrieval)
               then float_0_2 else 0)) as Hz.
  { intros Hz. apply Qeq_bool_iff in Hz. unfold verifier.verify. simpl. by rewrite Hz. }
  assert ((0 < tools.score retrieval)%Q ->
     verifier.confidence (verifier.verify plan solve_result retrieval)
     = round2 (tools.score retrieval)) as Hpos.
  { intros Hpos. apply Hnz. intros H0. rewrite H0 in Hpos. by apply Qlt_irrefl in Hpos. }
  assert ((0 <= tools.score retrieval)%Q -> ~ (0 < tools.score retrieval)%Q ->
     verifier.confidence (verifier.verify plan solve_result retrieval)
     = round2 (if verifier.passed (verifier.verify plan solve_result retrieval)
               then float_0_2 else 0)) as Hnpos.
  { intros Hge Hngt. apply Hz. apply Qle_antisym; [|done]. by apply Qnot_lt_le. }
  split; [|split; [|split; [|split; [|split; [|split]]]]].
  - unfold verifier.verify. simpl. rewrite andb_true_iff, !negb_true_iff, !is_empty_false.
    tauto.
  - intros Hge. destruct (Qltb 0 (tools.score retrieval)) eqn:E.
    + apply Hpos. by apply Qltb_lt.
    + apply Hnpos; [done|]. intros Hlt. apply Qltb_lt in Hlt. congruence.
  - exact Hpos.
  - exact Hnpos.
  - by vm_compute.
  - by vm_compute.
  - eexists. unfold verifier.verify. simpl. apply round2_hundredths.
Qed.

(** ** ToolExecutor: best-match selection *)

Section BestMatch.

Variable lower : pystr -> pystr.
Variable query : pystr.
Variable fields : list pystr.

Local Abbreviation score_of := (entry_score lower query fields).
Local Abbreviation step := (tools.best_step lower query fields).

(** The loop of [_best_match] from any state [(best_entry, best_score)]:
    either no record replaces the state, and none scores above
    [best_score]; or the result is the first record that reaches the
    greatest score, which is above [best_score]. *)
Lemma best_fold (entries : list (gmap pystr pystr)) be bs e s :
  foldl step (be, bs) entries = (Some e, s) ->
  (be = Some e /\ bs = s /\ forall j ej, entries !! j = Some ej -> (score_of ej <= s)%Q) \/
  (exists i, entries !! i = Some e /\ s = score_of e /\ (bs < s)%Q /\
     (forall j ej, entries !! j = Some ej -> (score_of ej <= s)%Q) /\
     (forall j ej, j < i -> entries !! j = Some ej -> (score_of ej < s)%Q)).
Proof.
  revert be bs. induction entries as [|x rest IH]; intros be bs Hfold.
  - left. simpl in Hfold. by injection Hfold as -> ->.
  - simpl in Hfold. unfold tools.best_step at 2 in Hfold. simpl in Hfold.
    fold (score_of x) in Hfold.
    destruct (Qltb bs (score_of x)) eqn:Hcmp.
    + apply Qltb_lt in Hcmp. right.
      destruct (IH _ _ Hfold) as [(He & Hs & Hall) | (i & Hi & Hs & Hlt & Hall & Hbefore)].
      * injection He as <-. subst s. exists 0. repeat split; [done | |lia].
        intros [|j] ej Hj; [injection Hj as <-; apply Qle_refl | by apply (Hall j)].
      * exists (S i). repeat split; [done | done | by eapply Qlt_trans | |].
        -- intros [|j] ej Hj; [injection Hj as <-; by apply Qlt_le_weak | by apply (Hall j)].
        -- intros [|j] ej Hlt' Hj; [by injection Hj as <- |].
           apply (Hbefore j); [lia | done].
    + apply Qltb_ge in Hcmp.
      destruct (IH _ _ Hfold) as [(He & Hs & Hall) | (i & Hi & Hs & Hlt & Hall & Hbefore)].
      * left. repeat split; [done | done |]. subst s.
        intros [|j] ej Hj; [by injection Hj as <- | by apply (Hall j)].
      * right. exists (S i). repeat split; [done | done | done | |].
        -- intros [|j] ej Hj; [|by apply (Hall j)].
           injection Hj as <-. apply Qlt_le_weak. by eapply Qle_lt_trans.
        -- intros [|j] ej Hlt' Hj; [|apply (Hbefore j); [lia | done]].
           injection Hj as <-. by eapply Qle_lt_trans.
Qed.

(** When no record is selected the returned score is the initial [0.0]. *)
Lemma best_fold_none (entries : list (gmap pystr pystr)) bs s :
  foldl step (None, bs) entries = (None, s) -> s = bs.
Proof.
  revert bs. induction entries as [|x rest IH]; intros bs Hfold.
  - simpl in Hfold. by injection Hfold as ->.
  - simpl in Hfold. unfold tools.best_step at 2 in Hfold. simpl in Hfold.
    destruct (Qltb bs _) eqn:Hcmp; [|by apply IH].
    exfalso. clear IH Hcmp. revert Hfold.
    generalize (tools._score lower query (tools.field_text x fields)). generalize x.
    induction rest as [|y rest IH]; intros x0 q Hfold; [done|].
    simpl in Hfold. unfold tools.best_step at 2 in Hfold. simpl in Hfold.
    destruct (Qltb q _); by eapply IH.
Qed.

Lemma best_match_some (entries : list (gmap pystr pystr)) e s :
  tools._best_match lower entries query fields = (Some e, s) ->
  exists i, entries !! i = Some e /\ s = score_of e /\ (0 < s)%Q /\
     (forall j ej, entries !! j = Some ej -> (score_of ej <= s)%Q) /\
     (forall j ej, j < i -> entries !! j = Some ej -> (score_of ej < s)%Q).
Proof.
  intros H. apply best_fold in H as [(He & _) | H]; [done | exact H].
Qed.

Lemma best_match_none (entries : list (gmap pystr pystr)) s :
  tools._best_match lower entries query fields = (None, s) -> s = 0%Q.
Proof. apply best_fold_none. Qed.

End BestMatch.

(** ** ToolExecutor: execute *)

Lemma py_app_nonempty (lit : string) (rest : pystr) :
  is_empty (py lit) = false -> py lit ++ rest <> [].
Proof. destruct (py lit); [done | by intros _]. Qed.

(** What a returned result of [execute] can be: the unknown-tool result,
    the empty result when no record is selected, or a result carrying
    the score of the selected record and a non-empty context. *)
Lemma execute_cases (lower : pystr -> pystr) self plan r :
  tools.execute lower self plan = Some r ->
  tools.task_type r = planner.task_type plan /\
  tools.query r = planner.query plan /\
  ((tool_corpus self (planner.tool_name plan) = None /\
    tools.context r = [] /\ tools.source r = py "unknown" /\ tools.score r = 0%Q /\
    tools.metadata r = {[ py "error" := py "no tool named " ++ planner.tool_name plan ]}) \/
   (selected lower self plan = (None, 0%Q) /\
    is_Some (tool_corpus self (planner.tool_name plan)) /\
    r = tools._empty_result plan) \/
   (exists e, selected lower self plan = (Some e, tools.score r) /\
    is_Some (tool_corpus self (planner.tool_name plan)) /\
    tools.context r <> [])).
Proof.
  unfold tools.execute, selected, tool_corpus.
  unfold tools._run_anomaly_tool, tools._run_sop_tool, tools._run_bom_tool.
  repeat case_decide.
  4: { intros [= <-]. cbn. split; [reflexivity|]. split; [reflexivity|]. left.
       repeat split; reflexivity. }
  all: match goal with
    | |- context [tools._best_match ?l ?es ?q ?fs] =>
        destruct (tools._best_match l es q fs) as [[e|] s] eqn:Hbest
    end.
  all: try (intros [= <-]; split; [reflexivity|]; split; [reflexivity|]; right; left;
            rewrite (best_match_none _ _ _ _ _ Hbest);
            split; [reflexivity|]; split; [by eexists | reflexivity]).
  all: repeat match goal with
       | |- context [@lookup _ _ _ _ (py ?k) ?m] =>
           destruct (@lookup _ _ _ _ (py k) m); cbn [mbind option_bind];
           [|intros Hr; discriminate Hr]
       end.
  all: intros Hr; injection Hr as <-.
  all: (split; [reflexivity|]; split; [reflexivity|]; right; right; exists e;
        split; [reflexivity|]; split; [by eexists|]).
  all: cbn [tools.context]; apply py_app_nonempty; vm_compute; reflexivity.
Qed.

(** When every record of the plan's corpus has the keys that the tool
    reads, [execute] returns a result: no [entry[key]] raises. *)
Theorem execute_returns (lower : pystr -> pystr) (self : tools.ToolExecutor)
    (plan : planner.TaskPlan) :
  (forall entries fields e key,
     tool_corpus self (planner.tool_name plan) = Some (entries, fields) ->
     e ∈ entries -> key ∈ tool_keys (planner.tool_name plan) -> is_Some (e !! key)) ->
  is_Some (tools.execute lower self plan).
Proof.
  intros Hkeys. unfold tools.execute.
  unfold tools._run_anomaly_tool, tools._run_sop_tool, tools._run_bom_tool.
  unfold tool_corpus, tool_keys in Hkeys.
  repeat case_decide; [| | | by eexists];
    match goal with
    | |- context [tools._best_match ?l ?es ?q ?fs] =>
        destruct (tools._best_match l es q fs) as [[e|] s] eqn:Hbest; [|by eexists]
    end.
  all: apply best_match_some in Hbest as (i & Hi & _).
  all: apply list_elem_of_lookup_2 in Hi.
  all: match goal with Hin : ?x ∈ _ |- _ => specialize (fun key => Hkeys _ _ x key eq_refl Hin) end.
  all: repeat match goal with
       | |- context [@lookup _ _ _ _ (py ?k) _] =>
           let v := fresh "v" in let Hv := fresh "Hv" in
           destruct (Hkeys (py k)) as [v Hv];
           [repeat first [apply list_elem_of_here | apply list_elem_of_further]
           | rewrite Hv; cbn [mbind option_bind]]
       end.
  all: by eexists.
Qed.

(** C10: a result returned by [execute] carries the plan's task type and
    query, in every branch. *)
Theorem execute_carries_plan (lower : pystr -> pystr) (self : tools.ToolExecutor)
    (plan : planner.TaskPlan) (r : tools.RetrievalResult) :
  tools.execute lower self plan = Some r ->
  tools.task_type r = planner.task_type plan /\ tools.query r = planner.query plan.
Proof.
  intros H. apply execute_cases in H as (Ht & Hq & _). by split.
Qed.

(** C6, as the code has it: for a tool name that is none of the three
    tools, [execute] returns a result (it does not raise) with an empty
    context, the source ["unknown"], the score 0 and an ["error"] entry
    that names the tool. *)
Theorem execute_unknown_tool (lower : pystr -> pystr) (self : tools.ToolExecutor)
    (plan : planner.TaskPlan) :
  planner.tool_name plan <> py "anomaly_diagnosis" ->
  planner.tool_name plan <> py "sop_lookup" ->
  planner.tool_name plan <> py "workorder_recommendation" ->
  exists r, tools.execute lower self plan = Some r /\
    tools.context r = [] /\
    tools.source r = py "unknown" /\
    tools.score r = 0%Q /\
    tools.metadata r !! py "error" = Some (py "no tool named " ++ planner.tool_name plan) /\
    substring (planner.tool_name plan) (py "no tool named " ++ planner.tool_name plan) /\
    tools.task_type r = planner.task_type plan /\
    tools.query r = planner.query plan.
Proof.
  intros H1 H2 H3. unfold tools.execute.
  rewrite !decide_False by done.
  eexists. split; [done|]. cbn [tools.context tools.source tools.score tools.metadata
                                   tools.task_type tools.query].
  split; [done|]. split; [done|]. split; [done|].
  split; [apply lookup_singleton_eq|]. split; [|done].
  exists (py "no tool named "), []. by rewrite app_nil_r.
Qed.

(** C6 fails as stated at the tool name ["foo"]: the source of the
    result is ["unknown"], not the empty string. *)
Lemma execute_unknown_tool_source_not_empty :
  exists r,
    tools.execute ascii_lower (tools.mkToolExecutor [] [] [])
      (planner.mkTaskPlan (py "sop_lookup") (py "foo") (py "q") ∅) = Some r /\
    tools.source r = py "unknown" /\
    tools.source r <> [].
Proof. eexists. split; [reflexivity|]. split; [reflexivity | by vm_compute]. Qed.

(** C3: in a result returned by [execute] the context is empty exactly
    when the score is 0; it is empty, with score 0, when no record is
    selected (unknown tool, empty corpus, no record scoring above 0);
    and when a record is selected the context is not empty and the score
    is positive. *)
Theorem execute_context_empty_iff_score_zero (lower : pystr -> pystr) (self : tools.ToolExecutor)
    (plan : planner.TaskPlan) (r : tools.RetrievalResult) :
  tools.execute lower self plan = Some r ->
  (tools.context r = [] <-> (tools.score r == 0)%Q) /\
  ((selected lower self plan).1 = None -> tools.context r = [] /\ (tools.score r == 0)%Q) /\
  (forall e, (selected lower self plan).1 = Some e ->
             tools.context r <> [] /\ (0 < tools.score r)%Q).
Proof.
  intros H. apply execute_cases in H as (_ & _ & [Hunk | [Hnone | Hsome]]).
  - destruct Hunk as (Hc & Hctx & _ & Hs & _).
    unfold selected. rewrite Hc, Hctx, Hs. simpl. repeat split; done.
  - destruct Hnone as (Hsel & _ & ->). rewrite Hsel. simpl. repeat split; done.
  - destruct Hsome as (e & Hsel & [[entries fields] Hc] & Hctx).
    assert (0 < tools.score r)%Q as Hpos.
    { unfold selected in Hsel. rewrite Hc in Hsel.
      by apply best_match_some in Hsel as (i & _ & _ & Hpos & _). }
    rewrite Hsel. simpl. split; [split; [done|] | split; [done | by intros e' _]].
    intros Hz. rewrite Hz in Hpos. by apply Qlt_irrefl in Hpos.
Qed.

Lemma best_match_first_greatest (lower : pystr -> pystr) (entries : list (gmap pystr pystr))
    (query : pystr) (fields : list pystr) e s :
  tools._best_match lower entries query fields = (Some e, s) ->
  exists i, first_greatest lower query fields entries i e s.
Proof. intros H. apply best_match_some in H as (i & H). by exists i. Qed.

Lemma first_greatest_tie (lower : pystr -> pystr) (query : pystr) (fields : list pystr)
    (entries : list (gmap pystr pystr)) i e s j k ej ek :
  first_greatest lower query fields entries i e s ->
  j < k -> entries !! j = Some ej -> entries !! k = Some ek ->
  tools.field_text ej fields = tools.field_text ek fields ->
  i <> k.
Proof.
  intros (Hi & Hs & _ & _ & Hbefore) Hjk Hj Hk Htext ->.
  pose proof (Hbefore j ej Hjk Hj) as Hlt.
  rewrite Hk in Hi. injection Hi as ->.
  unfold entry_score in *. rewrite Htext, <- Hs in Hlt. by apply Qlt_irrefl in Hlt.
Qed.

(** What [execute] builds when a record is selected: the rendering of
    that record by the plan's tool, with the score of the selection. *)
Lemma execute_built_from (lower : pystr -> pystr) self plan r e s :
  tools.execute lower self plan = Some r ->
  selected lower self plan = (Some e, s) ->
  built_from (planner.tool_name plan) e r /\ tools.score r = s.
Proof.
  unfold tools.execute, selected, tool_corpus, built_from.
  unfold tools._run_anomaly_tool, tools._run_sop_tool, tools._run_bom_tool.
  repeat case_decide.
  4: { intros _ Hsel. discriminate Hsel. }
  all: intros Hex Hsel; rewrite Hsel in Hex; cbv beta iota in Hex.
  all: repeat match type of Hex with
       | context [@lookup _ _ _ _ (py ?k) ?m] =>
           destruct (@lookup _ _ _ _ (py k) m) eqn:?; cbn [mbind option_bind] in Hex;
           [|discriminate Hex]
       end.
  all: injection Hex as <-; split; [|reflexivity].
  - left. split; [assumption|]. do 4 eexists.
    repeat (split; [eassumption|]). repeat split; reflexivity.
  - right. left. split; [assumption|]. do 3 eexists.
    repeat (split; [eassumption|]). repeat split; reflexivity.
  - right. right. split; [assumption|]. do 4 eexists.
    repeat (split; [eassumption|]). repeat split; reflexivity.
Qed.

(** C1: the record [_best_match] selects is the first record of greatest
    score: its score is at least that of every record of the corpus and
    greater than that of every record before it in load order; so of two
    records with the same field text the later one is never the one
    selected; and a result of [execute] with a context is built from
    that record: its context, source and metadata are made of the
    values of the first record of greatest score, and its score is the
    score of that record. *)
Theorem best_match_strictly_greatest_first (lower : pystr -> pystr) :
  (forall (entries : list (gmap pystr pystr)) query fields e s,
     tools._best_match lower entries query fields = (Some e, s) ->
     exists i, first_greatest lower query fields entries i e s /\
       forall j k ej ek,
         j < k -> entries !! j = Some ej -> entries !! k = Some ek ->
         tools.field_text ej fields = tools.field_text ek fields -> i <> k) /\
  (forall self plan entries fields r,
     tool_corpus self (planner.tool_name plan) = Some (entries, fields) ->
     tools.execute lower self plan = Some r ->
     tools.context r <> [] ->
     exists i e,
       tools._best_match lower entries (planner.query plan) fields = (Some e, tools.score r) /\
       first_greatest lower (planner.query plan) fields entries i e (tools.score r) /\
       built_from (planner.tool_name plan) e r /\
       forall j k ej ek,
         j < k -> entries !! j = Some ej -> entries !! k = Some ek ->
         tools.field_text ej fields = tools.field_text ek fields -> i <> k).
Proof.
  split.
  - intros entries query fields e s H.
    destruct (best_match_first_greatest _ _ _ _ _ _ H) as [i Hi].
    exists i. split; [done|]. intros j k ej ek. by eapply first_greatest_tie.
  - intros self plan entries fields r Hc Hex Hctx.
    pose proof Hex as Hex'.
    apply execute_cases in Hex' as (_ & _ & [Hunk | [Hnone | Hsome]]).
    + destruct Hunk as (Hc' & _). congruence.
    + destruct Hnone as (_ & _ & ->). done.
    + destruct Hsome as (e & Hsel & _ & _).
      destruct (execute_built_from _ _ _ _ _ _ Hex Hsel) as [Hbuilt _].
      unfold selected in Hsel. rewrite Hc in Hsel.
      destruct (best_match_first_greatest _ _ _ _ _ _ Hsel) as [i Hi].
      exists i, e. split; [done|]. split; [done|]. split; [done|].
      intros j k ej ek. by eapply first_greatest_tie.
Qed.

(** ** difflib: blocks stay inside their window *)

Section FindLongestMatchBounds.

Import difflib.

Variables a b : pystr.

Lemma isbjunk_false c : isbjunk c = false.
Proof. unfold isbjunk, bjunk. by apply bool_decide_eq_false_2, not_elem_of_empty. Qed.

Lemma j2lenget_bound alo blo bhi i best j2len j :
  row_inv alo blo bhi i (best, j2len) -> blo <= j ->
  j2lenget j2len j <= j - blo /\ j2lenget j2len j <= i - alo.
Proof.
  intros (_ & _ & _ & _ & Hmap) Hj. unfold j2lenget.
  destruct j as [|j']; [lia|].
  destruct (j2len !! j') as [v|] eqn:Hv; simpl; [|lia].
  destruct (Hmap _ _ Hv) as (? & ? & ? & ?). lia.
Qed.

Lemma flm_inner_inv alo blo bhi i best j2len idxs best' new :
  alo <= i ->
  row_inv alo blo bhi i (best, j2len) ->
  row_inv alo blo bhi (S i) (best', new) ->
  row_inv alo blo bhi (S i) (flm_inner blo bhi i j2len idxs best' new).
Proof.
  intros Hi Hold. revert best' new. induction idxs as [|j idxs IH]; intros best' new Hnew; [done|].
  simpl. destruct (Nat.ltb_spec j blo) as [Hlo | Hlo]; [by apply IH|].
  destruct (Nat.leb_spec bhi j) as [Hhi | Hhi]; [done|].
  apply IH.
  destruct (j2lenget_bound _ _ _ _ _ _ j Hold Hlo) as [Hk1 Hk2].
  destruct Hnew as (H1 & H2 & H3 & H4 & Hmap). unfold row_inv. simpl in *.
  split; [|split; [|split; [|split]]].
  - destruct (Nat.ltb_spec (m_size best') (j2lenget j2len j + 1)); simpl; lia.
  - destruct (Nat.ltb_spec (m_size best') (j2lenget j2len j + 1)); simpl; lia.
  - destruct (Nat.ltb_spec (m_size best') (j2lenget j2len j + 1)); simpl; lia.
  - destruct (Nat.ltb_spec (m_size best') (j2lenget j2len j + 1)); simpl; lia.
  - intros j0 v. rewrite lookup_insert. case_decide as Hj0.
    + intros [= <-]. subst j0. lia.
    + intros Hv. destruct (Hmap _ _ Hv) as (? & ? & ? & ?). lia.
Qed.

Lemma flm_row_inv alo blo bhi i st :
  alo <= i -> row_inv alo blo bhi i st -> row_inv alo blo bhi (S i) (flm_row a b blo bhi st i).
Proof.
  intros Hi Hinv. destruct st as [best j2len]. unfold flm_row. simpl.
  apply (flm_inner_inv alo blo bhi i best); [done | done |].
  destruct Hinv as (H1 & H2 & H3 & H4 & _). unfold row_inv. simpl in *.
  repeat split; try lia. all: by rewrite lookup_empty in H.
Qed.

Lemma flm_rows_inv alo blo bhi n i st :
  alo <= i -> row_inv alo blo bhi i st ->
  row_inv alo blo bhi (i + n) (foldl (flm_row a b blo bhi) st (seq i n)).
Proof.
  revert i st. induction n as [|n IH]; intros i st Hi Hinv.
  - by rewrite Nat.add_0_r.
  - simpl. replace (i + S n) with (S i + n) by lia.
    apply IH; [lia | by apply flm_row_inv].
Qed.

Lemma extend_left_bounds P alo blo besti bestj bestsize :
  alo <= besti -> blo <= bestj ->
  let m := extend_left a b P alo blo besti bestj bestsize in
  alo <= m_a m /\ blo <= m_b m /\ m_a m <= besti /\
  m_a m + m_size m = besti + bestsize /\ m_b m + m_size m = bestj + bestsize.
Proof.
  revert bestj bestsize. induction besti as [|i IH]; intros bestj bestsize Ha Hb; simpl.
  - destruct bestj; simpl; lia.
  - destruct bestj as [|j]; [simpl; lia|].
    destruct (_ && _) eqn:Hcond; [|simpl; lia].
    rewrite !andb_true_iff, !Nat.ltb_lt in Hcond.
    destruct (IH j (S bestsize)) as (? & ? & ? & ? & ?); [lia | lia |].
    simpl in *. lia.
Qed.

Lemma extend_right_bounds P ahi bhi besti bestj fuel bestsize :
  besti + bestsize <= ahi -> bestj + bestsize <= bhi ->
  let k := extend_right a b P ahi bhi besti bestj fuel bestsize in
  bestsize <= k /\ besti + k <= ahi /\ bestj + k <= bhi.
Proof.
  revert bestsize. induction fuel as [|fuel IH]; intros bestsize Ha Hb; simpl; [lia|].
  destruct (_ && _) eqn:Hcond; [|lia].
  rewrite !andb_true_iff, !Nat.ltb_lt in Hcond.
  destruct (IH (S bestsize)) as (? & ? & ?); [lia | lia |]. lia.
Qed.

Lemma extend_bounds P alo ahi blo bhi best :
  alo <= m_a best -> blo <= m_b best ->
  m_a best + m_size best <= ahi -> m_b best + m_size best <= bhi ->
  let m := extend a b P alo ahi blo bhi best in
  alo <= m_a m /\ blo <= m_b m /\ m_a m + m_size m <= ahi /\ m_b m + m_size m <= bhi /\
  m_size best <= m_size m.
Proof.
  intros H1 H2 H3 H4. unfold extend.
  destruct (extend_left_bounds P alo blo (m_a best) (m_b best) (m_size best) H1 H2)
    as (L1 & L2 & L0 & L3 & L4).
  set (l := extend_left a b P alo blo (m_a best) (m_b best) (m_size best)) in *.
  destruct (extend_right_bounds P ahi bhi (m_a l) (m_b l) (ahi - (m_a l + m_size l)) (m_size l))
    as (R1 & R2 & R3); [lia | lia |].
  simpl in *. lia.
Qed.

(** [find_longest_match] returns a block inside the window it is given. *)
Lemma find_longest_match_bounds alo ahi blo bhi :
  alo <= ahi -> blo <= bhi ->
  let m := find_longest_match a b alo ahi blo bhi in
  alo <= m_a m /\ m_a m + m_size m <= ahi /\ blo <= m_b m /\ m_b m + m_size m <= bhi.
Proof.
  intros Ha Hb. unfold find_longest_match.
  pose proof (flm_rows_inv alo blo bhi (ahi - alo) alo (mkMatch alo blo 0, ∅)) as Hinv.
  replace (alo + (ahi - alo)) with ahi in Hinv by lia.
  destruct Hinv as (H1 & H2 & H3 & H4 & _); [lia | |].
  { unfold row_inv. simpl. repeat split; try lia. all: by rewrite lookup_empty in H. }
  set (best := (foldl _ _ _).1) in *.
  destruct (extend_bounds (fun c => negb (isbjunk c)) alo ahi blo bhi best) as (E1 & E2 & E3 & E4 & _);
    [done..|].
  set (best1 := extend _ _ _ _ _ _ _ best) in *.
  destruct (extend_bounds isbjunk alo ahi blo bhi best1) as (F1 & F2 & F3 & F4 & _); [done..|].
  cbv zeta. lia.
Qed.

End FindLongestMatchBounds.

(** ** difflib: the matching blocks and the ratio *)

Section MatchingBlocks.

Import difflib.

Variables a b : pystr.

Local Abbreviation sizes := (sum_list_with m_size).

(** The loop of [get_matching_blocks] ends within
    [sum (2 * width + 1)] iterations, and the blocks it adds are no
    longer in total than the windows of the queue, in [a] and in [b]. *)
Lemma gmb_loop_spec fuel queue acc :
  Forall window_ok queue ->
  sum_list_with (fun w => 2 * width_a w + 1) queue <= fuel ->
  exists blocks,
    gmb_loop a b fuel queue acc = Some (acc ++ blocks) /\
    sizes blocks <= sum_list_with width_a queue /\
    sizes blocks <= sum_list_with width_b queue.
Proof.
  revert queue acc. induction fuel as [|fuel IH]; intros queue acc Hok Hfuel.
  - destruct queue as [|w queue]; [|simpl in Hfuel; lia].
    exists []. simpl. by rewrite app_nil_r.
  - destruct queue as [|[[[alo ahi] blo] bhi] queue].
    { exists []. simpl. by rewrite app_nil_r. }
    apply Forall_cons in Hok as [[Ha Hb] Hok]. simpl in Ha, Hb.
    cbn [gmb_loop].
    destruct (find_longest_match_bounds a b alo ahi blo bhi Ha Hb) as (B1 & B2 & B3 & B4).
    set (x := find_longest_match a b alo ahi blo bhi) in *.
    cbn [sum_list_with] in Hfuel. unfold width_a at 1 in Hfuel. cbn [fst snd] in Hfuel.
    destruct (Nat.eqb_spec (m_size x) 0) as [Hk | Hk].
    + destruct (IH queue acc Hok) as (blocks & Hrun & Hsa & Hsb); [lia|].
      exists blocks. split; [done|]. cbn [sum_list_with]. lia.
    + set (q1 := if (alo <? m_a x) && (blo <? m_b x)
                 then (alo, m_a x, blo, m_b x) :: queue else queue).
      set (q2 := if (m_a x + m_size x <? ahi) && (m_b x + m_size x <? bhi)
                 then (m_a x + m_size x, ahi, m_b x + m_size x, bhi) :: q1 else q1).
      assert (Forall window_ok q2 /\
              sum_list_with (fun w => 2 * width_a w + 1) q2 + 2 * m_size x
                <= 2 * (ahi - alo) + 2 + sum_list_with (fun w => 2 * width_a w + 1) queue /\
              sum_list_with width_a q2 + m_size x <= (ahi - alo) + sum_list_with width_a queue /\
              sum_list_with width_b q2 + m_size x <= (bhi - blo) + sum_list_with width_b queue)
        as (Hok2 & Hm & Hwa & Hwb).
      { subst q1 q2.
        destruct ((alo <? m_a x) && (blo <? m_b x)) eqn:Hl;
          destruct ((m_a x + m_size x <? ahi) && (m_b x + m_size x <? bhi)) eqn:Hr;
          rewrite ?andb_true_iff, ?Nat.ltb_lt in Hl, Hr;
          (split; [repeat (constructor; [unfold window_ok; cbn [fst snd]; lia|]); done |]);
          cbn [sum_list_with]; unfold width_a, width_b; cbn [fst snd]; lia. }
      destruct (IH q2 (acc ++ [x]) Hok2) as (blocks & Hrun & Hsa & Hsb); [lia|].
      exists (x :: blocks). split.
      * rewrite Hrun. by rewrite <- app_assoc.
      * cbn [sum_list_with]. unfold width_a at 1, width_b at 1. cbn [fst snd]. lia.
Qed.

(** With the fuel [get_matching_blocks] passes, the loop reaches the
    empty queue. *)
Lemma gmb_loop_terminates :
  exists blocks,
    gmb_loop a b (2 * length a + 2) [(0, length a, 0, length b)] [] = Some blocks /\
    sizes blocks <= length a /\ sizes blocks <= length b.
Proof.
  destruct (gmb_loop_spec (2 * length a + 2) [(0, length a, 0, length b)] []) as (blocks & H & Ha & Hb).
  - apply Forall_cons. split; [unfold window_ok; simpl; lia | done].
  - cbn [sum_list_with]. unfold width_a. simpl. lia.
  - exists blocks. cbn [sum_list_with] in Ha, Hb. unfold width_a in Ha. unfold width_b in Hb.
    simpl in *. split; [done | lia].
Qed.

Lemma collapse_sizes l cur non_adjacent :
  let st := foldl collapse_step (cur, non_adjacent) l in
  sizes st.2 + m_size st.1 = sizes non_adjacent + m_size cur + sizes l.
Proof.
  revert cur non_adjacent. induction l as [|x l IH]; intros cur na; simpl; [lia|].
  destruct (_ && _).
  - rewrite IH. simpl. lia.
  - rewrite IH. simpl. destruct (Nat.eqb_spec (m_size cur) 0) as [Hz|Hz].
    + lia.
    + rewrite sum_list_with_app. simpl. lia.
Qed.

(** Sorting and merging adjacent blocks keep the total size: the
    [matches] of [ratio] is the total size of the blocks found. *)
Lemma get_matching_blocks_sizes :
  sizes (get_matching_blocks a b)
  = sizes (default [] (gmb_loop a b (2 * length a + 2) [(0, length a, 0, length b)] [])).
Proof.
  unfold get_matching_blocks.
  set (blocks := default [] _).
  pose proof (collapse_sizes (merge_sort Match_le blocks) (mkMatch 0 0 0) []) as H.
  destruct (foldl collapse_step _ _) as [cur na]. simpl in H.
  rewrite sum_list_with_app. simpl.
  rewrite (merge_sort_Permutation Match_le blocks) in H.
  destruct (Nat.eqb_spec (m_size cur) 0) as [Hz|Hz].
  - lia.
  - rewrite sum_list_with_app. simpl. lia.
Qed.

Lemma sum_list_sizes (l : list Match) : sum_list (m_size <$> l) = sizes l.
Proof. induction l as [|x l IH]; [done|]. csimpl. by rewrite <- IH. Qed.

Lemma matches_bound :
  sum_list (m_size <$> get_matching_blocks a b) <= length a /\
  sum_list (m_size <$> get_matching_blocks a b) <= length b.
Proof.
  rewrite sum_list_sizes, get_matching_blocks_sizes.
  destruct gmb_loop_terminates as (blocks & -> & Ha & Hb). done.
Qed.

Lemma calculate_ratio_bounds matches length :
  2 * matches <= length -> (0 <= _calculate_ratio matches length <= 1)%Q.
Proof.
  intros H. unfold _calculate_ratio.
  destruct (Nat.eqb_spec length 0) as [Hz|Hz]; [split; discriminate|].
  apply fl_bounds.
  unfold Qdiv, Qle, Qmult, Qinv; simpl.
  destruct (Z.of_nat length) eqn:Hl; [lia | | lia].
  simpl. split; nia.
Qed.

(** [ratio()] is in [0, 1]. *)
Lemma ratio_bounds : (0 <= ratio a b <= 1)%Q.
Proof.
  unfold ratio. apply calculate_ratio_bounds.
  destruct matches_bound. lia.
Qed.

End MatchingBlocks.

(** ** difflib: the index [b2j] *)

Section ChainB.

Import difflib.

Lemma indices_of_snoc (b : pystr) x c :
  indices_of (b ++ [x]) c = indices_of b c ++ (if N.eqb x c then [length b] else []).
Proof.
  unfold indices_of. rewrite length_app. simpl. rewrite Nat.add_1_r, seq_S, List.filter_app.
  f_equal.
  - apply filter_ext_in. intros j Hj. apply in_seq in Hj. unfold is_at.
    by rewrite lookup_app_l by lia.
  - simpl. unfold is_at. rewrite list_lookup_middle by done. by destruct (N.eqb x c).
Qed.

Lemma b2j_all_snoc (b : pystr) x :
  b2j_all (b ++ [x]) = chain_step (b2j_all b) (length b, x).
Proof.
  unfold b2j_all. rewrite imap_app, foldl_app. simpl. by rewrite Nat.add_0_r.
Qed.

(** After the loop over [enumerate(b)], [b2j[c]] is the list of the
    positions of [c], ascending. *)
Lemma b2j_all_lookup (b : pystr) c :
  default [] (b2j_all b !! c) = indices_of b c.
Proof.
  induction b as [|x b IH] using rev_ind; [done|].
  rewrite b2j_all_snoc, indices_of_snoc. unfold chain_step. simpl.
  destruct (N.eqb_spec x c) as [-> | Hne].
  - rewrite lookup_insert_eq. simpl. by rewrite IH.
  - rewrite lookup_insert_ne by done. by rewrite IH, app_nil_r.
Qed.

Lemma b2j_lookup (b : pystr) c idxs :
  b2j b !! c = Some idxs -> idxs = indices_of b c.
Proof.
  intros H. rewrite <- b2j_all_lookup.
  unfold b2j in H. destruct (200 <=? length b).
  - apply map_lookup_filter_Some in H as [H _]. by rewrite H.
  - by rewrite H.
Qed.

(** The positions of the element at [i] are those before [i], then [i],
    then those after [i]. *)
Lemma indices_of_split (b : pystr) i c :
  b !! i = Some c ->
  exists l1 l2, indices_of b c = l1 ++ i :: l2 /\
    (forall j, j ∈ l1 -> j < i /\ b !! j = Some c) /\
    (forall j, j ∈ l2 -> i < j /\ j < length b /\ b !! j = Some c).
Proof.
  intros Hi. pose proof (lookup_lt_Some _ _ _ Hi) as Hlt.
  assert (forall j, is_at b c j = true -> b !! j = Some c) as Hat.
  { intros j. unfold is_at. destruct (b !! j) as [d|]; [|done].
    intros ->%N.eqb_eq. done. }
  exists (List.filter (is_at b c) (seq 0 i)), (List.filter (is_at b c) (seq (S i) (length b - S i))).
  split; [|split].
  - unfold indices_of.
    replace (length b) with (i + S (length b - S i)) at 1 by lia.
    rewrite seq_app, List.filter_app. simpl.
    unfold is_at at 2. by rewrite Hi, N.eqb_refl.
  - intros j Hj. apply list_elem_of_In, filter_In in Hj as [Hj Hp].
    apply in_seq in Hj. split; [lia | by apply Hat].
  - intros j Hj. apply list_elem_of_In, filter_In in Hj as [Hj Hp].
    apply in_seq in Hj. split; [lia | split; [lia | by apply Hat]].
Qed.

End ChainB.

(** ** difflib: the inner loop inside the window *)

Section InnerLoop.

Import difflib.

Variables blo bhi i : nat.
Variable j2len : gmap nat nat.

Local Abbreviation in_window := (fun j => blo <= j /\ j < bhi).

Lemma flm_inner_visited idxs best new :
  (forall j, j ∈ idxs -> in_window j) ->
  (flm_inner blo bhi i j2len idxs best new).2 = visited j2len idxs new.
Proof.
  revert best new. induction idxs as [|j idxs IH]; intros best new Hwin; [done|].
  destruct (Hwin j) as [Hlo Hhi]; [by left|].
  simpl. rewrite (proj2 (Nat.ltb_ge j blo)), (proj2 (Nat.leb_gt bhi j)) by lia.
  apply IH. intros j' Hj'. apply Hwin. by right.
Qed.

Lemma flm_inner_no_update idxs best new :
  (forall j, j ∈ idxs -> in_window j) ->
  (forall j, j ∈ idxs -> j2lenget j2len j + 1 <= m_size best) ->
  (flm_inner blo bhi i j2len idxs best new).1 = best.
Proof.
  revert new. induction idxs as [|j idxs IH]; intros new Hwin Hle; [done|].
  destruct (Hwin j) as [Hlo Hhi]; [by left|].
  simpl. rewrite (proj2 (Nat.ltb_ge j blo)), (proj2 (Nat.leb_gt bhi j)) by lia.
  rewrite (proj2 (Nat.ltb_ge (m_size best) (j2lenget j2len j + 1))) by (apply Hle; by left).
  apply IH; intros j' Hj'; [apply Hwin | apply Hle]; by right.
Qed.

Lemma flm_inner_app l1 l2 best new :
  (forall j, j ∈ l1 -> in_window j) ->
  flm_inner blo bhi i j2len (l1 ++ l2) best new
  = flm_inner blo bhi i j2len l2
      (flm_inner blo bhi i j2len l1 best new).1 (flm_inner blo bhi i j2len l1 best new).2.
Proof.
  revert best new. induction l1 as [|j l1 IH]; intros best new Hwin; [done|].
  destruct (Hwin j) as [Hlo Hhi]; [by left|].
  simpl. rewrite (proj2 (Nat.ltb_ge j blo)), (proj2 (Nat.leb_gt bhi j)) by lia.
  apply IH. intros j' Hj'. apply Hwin. by right.
Qed.

Lemma visited_lookup_in idxs new j :
  j ∈ idxs -> visited j2len idxs new !! j = Some (j2lenget j2len j + 1).
Proof.
  unfold visited. revert new. induction idxs as [|x idxs IH] using rev_ind; intros new Hin.
  - by apply elem_of_nil in Hin.
  - rewrite foldl_app. simpl. destruct (decide (j = x)) as [-> | Hne].
    + by rewrite lookup_insert_eq.
    + rewrite lookup_insert_ne by done. apply IH.
      apply elem_of_app in Hin as [Hin | Hin]; [done|].
      apply list_elem_of_singleton in Hin. done.
Qed.

Lemma visited_lookup_out idxs new j :
  j ∉ idxs -> visited j2len idxs new !! j = new !! j.
Proof.
  unfold visited. revert new. induction idxs as [|x idxs IH]; intros new Hout; [done|].
  simpl. rewrite IH by (intros H; apply Hout; by right).
  apply lookup_insert_ne. intros ->. apply Hout. by left.
Qed.

End InnerLoop.

(** ** difflib: a sequence compared with itself *)

Section IdenticalSequences.

Import difflib.

Variable s : pystr.

Lemma run_prev_le j : run_prev s j <= j.
Proof. induction j as [|j IH]; simpl; [done|]. destruct (keyed s _); lia. Qed.

Lemma visited_cons j2len j idxs new :
  visited j2len (j :: idxs) new = visited j2len idxs (<[j := j2lenget j2len j + 1]> new).
Proof. done. Qed.

Lemma visited_app j2len l1 l2 new :
  visited j2len (l1 ++ l2) new = visited j2len l2 (visited j2len l1 new).
Proof. unfold visited. by rewrite foldl_app. Qed.

Lemma j2lenget_empty j : j2lenget ∅ j = 0.
Proof. destruct j; [done|]. simpl. by rewrite lookup_empty. Qed.

(** One row of the main loop keeps the best block on the diagonal. *)
Lemma flm_row_diag i st :
  i < length s -> diag_inv s i st -> diag_inv s (S i) (flm_row s s 0 (length s) st i).
Proof.
  intros Hi (Hd & Hend & Hruns & Hget & Hgeti). destruct st as [best j2len].
  cbn [fst snd] in *. unfold flm_row. cbn [fst snd].
  destruct (lookup_lt_is_Some_2 s i Hi) as [c Hc].
  rewrite (list_lookup_total_correct _ _ _ Hc).
  destruct (b2j s !! c) as [idxs|] eqn:Hb2j; cbn [default from_option id flm_inner].
  - pose proof (b2j_lookup _ _ _ Hb2j) as ->.
    destruct (indices_of_split s i c Hc) as (l1 & l2 & Hsplit & Hl1 & Hl2).
    assert (keyed s c = true) as Hkey by (unfold keyed; by rewrite Hb2j).
    assert (forall j, s !! j = Some c -> run s j = S (run_prev s j)) as Hrun.
    { intros j Hj. unfold run. cbn [run_prev].
      by rewrite (list_lookup_total_correct _ _ _ Hj), Hkey. }
    assert (forall j, j ∈ indices_of s c -> s !! j = Some c) as Hall.
    { rewrite Hsplit. intros j Hj. apply elem_of_app in Hj as [Hj | Hj]; [by apply Hl1|].
      apply elem_of_cons in Hj as [-> | Hj]; [done | by apply Hl2]. }
    assert (forall j, s !! j = Some c ->
              j2lenget j2len j + 1 <= run s j /\ j2lenget j2len j + 1 <= run s i) as Hk.
    { intros j Hj. rewrite (Hrun j Hj), (Hrun i Hc). destruct (Hget j). lia. }
    assert (j2lenget j2len i + 1 = run s i) as Hki by (rewrite (Hrun i Hc); lia).
    assert (run s i <= S i) as Hrle by apply run_prev_le.
    set (best' := if m_size best <? j2lenget j2len i + 1
                  then mkMatch (i + 1 - (j2lenget j2len i + 1)) (i + 1 - (j2lenget j2len i + 1))
                         (j2lenget j2len i + 1)
                  else best).
    assert (m_a best' = m_b best' /\ m_a best' + m_size best' <= S i /\
            m_size best <= m_size best' /\ run s i <= m_size best') as (Hd' & Hend' & Hmono & Hri).
    { subst best'. destruct (Nat.ltb_spec (m_size best) (j2lenget j2len i + 1)); simpl; lia. }
    assert (flm_inner 0 (length s) i j2len (indices_of s c) best ∅
            = (best', visited j2len (indices_of s c) ∅)) as ->.
    { rewrite Hsplit, flm_inner_app by (intros j Hj; destruct (Hl1 j Hj); lia).
      rewrite flm_inner_visited by (intros j Hj; destruct (Hl1 j Hj); lia).
      rewrite flm_inner_no_update; cycle 1.
      { intros j Hj; destruct (Hl1 j Hj); lia. }
      { intros j Hj. destruct (Hl1 j Hj) as [Hlt Hj']. destruct (Hk j Hj') as [Hkj _].
        specialize (Hruns j Hlt). lia. }
      cbn [flm_inner]. rewrite (proj2 (Nat.ltb_ge i 0)), (proj2 (Nat.leb_gt (length s) i)) by lia.
      fold best'. rewrite visited_app, visited_cons.
      apply injective_projections; cbn [fst snd].
      - apply flm_inner_no_update.
        + intros j Hj; destruct (Hl2 j Hj) as (? & ? & ?); lia.
        + intros j Hj. destruct (Hl2 j Hj) as (_ & _ & Hj'). destruct (Hk j Hj') as [_ Hkj]. lia.
      - apply flm_inner_visited. intros j Hj; destruct (Hl2 j Hj) as (? & ? & ?); lia. }
    unfold diag_inv. cbn [fst snd].
    assert (forall j, default 0 (visited j2len (indices_of s c) ∅ !! j) <= run s j /\
                      default 0 (visited j2len (indices_of s c) ∅ !! j) <= run s i) as Hnew.
    { intros j. destruct (decide (j ∈ indices_of s c)) as [Hin | Hout].
      - rewrite visited_lookup_in by done. simpl. by apply Hk, Hall.
      - rewrite visited_lookup_out, lookup_empty by done. simpl. lia. }
    split; [done|]. split; [done|]. split; [|split].
    + intros i' Hlt. destruct (decide (i' = i)) as [-> | Hne]; [done|].
      specialize (Hruns i'). lia.
    + intros [|j]; [simpl; lia|]. cbn [j2lenget]. apply Hnew.
    + cbn [j2lenget]. rewrite visited_lookup_in; [simpl; by rewrite Hki|].
      rewrite Hsplit. apply elem_of_app. right. by left.
  - assert (run s i = 0) as Hri.
    { unfold run. cbn [run_prev]. rewrite (list_lookup_total_correct _ _ _ Hc).
      unfold keyed. by rewrite Hb2j. }
    unfold diag_inv. cbn [fst snd].
    split; [done|]. split; [lia|]. split; [|split].
    + intros i' Hlt. destruct (decide (i' = i)) as [-> | Hne]; [lia|].
      apply Hruns. lia.
    + intros j. rewrite j2lenget_empty. lia.
    + rewrite j2lenget_empty. symmetry. exact Hri.
Qed.

Lemma flm_rows_diag m i st :
  i + m <= length s -> diag_inv s i st ->
  diag_inv s (i + m) (foldl (flm_row s s 0 (length s)) st (seq i m)).
Proof.
  revert i st. induction m as [|m IH]; intros i st Hle Hinv.
  - by rewrite Nat.add_0_r.
  - simpl. replace (i + S m) with (S i + m) by lia.
    apply IH; [lia|]. apply flm_row_diag; [lia | done].
Qed.

Lemma extend_left_diag d size :
  extend_left s s (fun c => negb (isbjunk c)) 0 0 d d size = mkMatch 0 0 (d + size).
Proof.
  revert size. induction d as [|d IH]; intros size; [done|].
  cbn [extend_left]. rewrite isbjunk_false, N.eqb_refl. simpl.
  rewrite IH. f_equal. lia.
Qed.

Lemma extend_right_diag fuel size :
  size + fuel <= length s ->
  extend_right s s (fun c => negb (isbjunk c)) (length s) (length s) 0 0 fuel size = size + fuel.
Proof.
  revert size. induction fuel as [|fuel IH]; intros size Hle; [simpl; lia|].
  cbn [extend_right]. rewrite isbjunk_false, N.eqb_refl.
  rewrite (proj2 (Nat.ltb_lt (0 + size) (length s))) by lia. simpl.
  rewrite IH by lia. lia.
Qed.

(** The longest match of a sequence with itself is the whole sequence. *)
Lemma find_longest_match_self :
  find_longest_match s s 0 (length s) 0 (length s) = mkMatch 0 0 (length s).
Proof.
  unfold find_longest_match.
  pose proof (flm_rows_diag (length s) 0 (mkMatch 0 0 0, ∅)) as Hinv.
  rewrite Nat.sub_0_r.
  destruct Hinv as (Hd & Hend & _); [done | |].
  { unfold diag_inv. cbn [fst snd m_a m_b m_size].
    split; [done|]. split; [done|]. split; [lia|]. split; [|by rewrite j2lenget_empty].
    intros j. rewrite j2lenget_empty. lia. }
  simpl in Hend.
  destruct (foldl _ _ _).1 as [besti bestj bestsize]. simpl in Hd, Hend. subst bestj.
  unfold extend at 2. cbn [m_a m_b m_size].
  rewrite extend_left_diag. cbn [m_a m_b m_size].
  rewrite extend_right_diag by lia.
  replace (besti + bestsize + (length s - (0 + (besti + bestsize)))) with (length s) by lia.
  unfold extend. cbn [m_a m_b m_size extend_left].
  by rewrite Nat.sub_diag.
Qed.

Lemma gmb_loop_nil (a b : pystr) fuel acc : gmb_loop a b fuel [] acc = Some acc.
Proof. by destruct fuel. Qed.

(** A non-empty sequence has ratio 1 with itself. *)
Lemma ratio_self : s <> [] -> (ratio s s == 1)%Q.
Proof.
  intros Hne. assert (length s <> 0) as Hlen by (by destruct s).
  unfold ratio. rewrite sum_list_sizes, get_matching_blocks_sizes.
  replace (2 * length s + 2) with (S (2 * length s + 1)) by lia.
  cbn [gmb_loop]. rewrite find_longest_match_self. cbn [m_a m_b m_size].
  rewrite (proj2 (Nat.eqb_neq (length s) 0)) by done.
  rewrite !Nat.ltb_irrefl. cbn [andb]. rewrite gmb_loop_nil.
  cbn [default from_option id app sum_list_with].
  unfold _calculate_ratio. rewrite (proj2 (Nat.eqb_neq (length s + length s) 0)) by lia.
  rewrite fl_one; [reflexivity|].
  unfold Qdiv, Qeq, Qmult, Qinv. simpl.
  destruct (Z.of_nat (length s + length s)) eqn:Hz; [lia | | lia].
  simpl. lia.
Qed.

End IdenticalSequences.

(** ** The similarity score *)

Lemma score_range (lower : pystr -> pystr) query text :
  (0 <= tools._score lower query text <= 1)%Q.
Proof.
  unfold tools._score.
  destruct (is_empty query || is_empty text); [split; discriminate|].
  apply ratio_bounds.
Qed.

(** C2: the score is in [0, 1]; a non-empty string scores 1 against
    itself ([lower] of a non-empty string is non-empty); and an empty
    argument on either side scores 0. *)
Theorem score_bounds_identity_empty (lower : pystr -> pystr) :
  (forall query text, (0 <= tools._score lower query text <= 1)%Q) /\
  ((forall s, s <> [] -> lower s <> []) ->
   forall text, text <> [] -> (tools._score lower text text == 1)%Q) /\
  (forall text, (tools._score lower text [] == 0)%Q /\ (tools._score lower [] text == 0)%Q).
Proof.
  split; [|split].
  - intros query text. unfold tools._score.
    destruct (is_empty query || is_empty text); [split; discriminate|].
    apply ratio_bounds.
  - intros Hlower text Hne. unfold tools._score.
    destruct text as [|c text]; [done|]. cbn [is_empty orb].
    apply ratio_self. by apply Hlower.
  - intros text. unfold tools._score. split.
    + by rewrite orb_true_r.
    + done.
Qed.

Lemma ascii_lower_nonempty s : s <> [] -> ascii_lower s <> [].
Proof. by destruct s. Qed.

(** ** Further properties of the pipeline *)

(** X10: The score of a result returned by [execute] is in [0, 1]. *)
Theorem execute_score_range (lower : pystr -> pystr) (self : tools.ToolExecutor)
    (plan : planner.TaskPlan) (r : tools.RetrievalResult) :
  tools.execute lower self plan = Some r -> (0 <= tools.score r <= 1)%Q.
Proof.
  intros H. apply execute_cases in H as (_ & _ & [Hunk | [Hnone | Hsome]]).
  - destruct Hunk as (_ & _ & _ & -> & _). split; discriminate.
  - destruct Hnone as (_ & _ & ->). split; discriminate.
  - destruct Hsome as (e & Hsel & [[entries fields] Hc] & _).
    unfold selected in Hsel. rewrite Hc in Hsel.
    apply best_match_some in Hsel as (i & _ & -> & _).
    apply score_range.
Qed.

Lemma round2_range x : (0 <= x <= 1)%Q -> (0 <= round2 x <= 1)%Q.
Proof.
  intros [Hlo Hhi]. unfold round2. apply fl_bounds.
  assert (0 <= round_half_even (x * 100))%Z as Hn by (apply round_half_even_nonneg; lra).
  assert (round_half_even (x * 100) <= 100)%Z as Hm.
  { apply round_half_even_le_int. change (inject_Z 100) with 100%Q. lra. }
  rewrite Zle_Qle in Hn, Hm. change (inject_Z 0) with 0%Q in Hn.
  change (inject_Z 100) with 100%Q in Hm.
  set (n := inject_Z (round_half_even (x * 100))) in *.
  assert (n / 100 == n * (1 # 100))%Q as -> by (unfold Qdiv; reflexivity).
  split; lra.
Qed.

(** X18: The confidence of [verify] is in [0, 1] when the retrieval score is. *)
Theorem verify_confidence_range (plan : planner.TaskPlan) (solve_result : solver.SolveResult)
    (retrieval : tools.RetrievalResult) :
  (0 <= tools.score retrieval <= 1)%Q ->
  (0 <= verifier.confidence (verifier.verify plan solve_result retrieval) <= 1)%Q.
Proof.
  intros Hs. unfold verifier.verify. cbn [verifier.confidence].
  apply round2_range.
  destruct (negb _); [done|]. destruct (_ && _); split; by vm_compute.
Qed.

Lemma scan_rules_some lower (rules : list planner.Rule) request normalized p :
  planner.scan_rules lower rules request normalized = Some p ->
  exists rule, rule ∈ rules /\
    planner.task_type p = planner.rule_task_type rule /\
    planner.tool_name p = planner.rule_tool rule.
Proof.
  induction rules as [|rule rules IH]; simpl; [done|].
  destruct (planner.matched_keywords lower rule normalized).
  - intros H. destruct (IH H) as (r & Hin & Ht). exists r. split; [by right | done].
  - intros [= <-]. exists rule. split; [by left | done].
Qed.

Lemma task_rules_declared rule :
  rule ∈ planner._TASK_RULES ->
  planner.rule_task_type rule
    ∈ [py "anomaly_diagnosis"; py "sop_lookup"; py "workorder_recommendation"] /\
  planner.rule_tool rule = planner.rule_task_type rule.
Proof.
  unfold planner._TASK_RULES. intros Hin.
  apply elem_of_cons in Hin as [-> | Hin]; [split; [apply list_elem_of_here | done]|].
  apply elem_of_cons in Hin as [-> | Hin];
    [split; [apply list_elem_of_further, list_elem_of_here | done]|].
  apply elem_of_cons in Hin as [-> | Hin];
    [split; [apply list_elem_of_further, list_elem_of_further, list_elem_of_here | done]|].
  by apply elem_of_nil in Hin.
Qed.

(** X1: [plan] returns a plan whose task type is one of the three declared
    ones or the default task, and whose tool name is its task type; when
    no rule matches it is the default task, with the reason
    ["fallback"]. *)
Theorem plan_task_type_declared (lower : pystr -> pystr) (self : planner.Planner)
    (request : pystr) :
  (planner.task_type (planner.plan lower self request)
     ∈ [py "anomaly_diagnosis"; py "sop_lookup"; py "workorder_recommendation"] \/
   planner.task_type (planner.plan lower self request) = planner.default_task self) /\
  planner.tool_name (planner.plan lower self request)
  = planner.task_type (planner.plan lower self request) /\
  ((forall rule, rule ∈ planner._TASK_RULES -> ~ rule_matches lower rule request) ->
   planner.task_type (planner.plan lower self request) = planner.default_task self /\
   planner.metadata (planner.plan lower self request) !! py "reason" = Some (py "fallback")).
Proof.
  unfold planner.plan.
  destruct (planner.scan_rules lower planner._TASK_RULES request (lower request)) as [p|] eqn:Hscan.
  - destruct (scan_rules_some _ _ _ _ _ Hscan) as (rule & Hin & Ht & Hn).
    destruct (task_rules_declared rule Hin) as [Hdecl Htool].
    split; [left; by rewrite Ht|]. split; [by rewrite Ht, Hn|].
    intros Hno. by rewrite (scan_rules_none lower _ _ Hno) in Hscan.
  - split; [by right|]. split; [done|]. intros _. split; [done|].
    cbn [planner.metadata].
    rewrite lookup_insert_ne by (intros H; by vm_compute in H).
    rewrite lookup_insert_ne by (intros H; by vm_compute in H).
    apply lookup_singleton_eq.
Qed.

(** ** Evaluation of the properties on sample data *)

Lemma sample_corpus :
  tool_corpus sample_executor (planner.tool_name sample_plan)
  = Some (sample_alerts, [py "symptom"; py "probable_causes"]).
Proof.
  unfold tool_corpus. rewrite decide_True; [reflexivity|]. vm_compute. reflexivity.
Qed.

Lemma score_bounds_identity_empty_witness :
  (0 <= tools._score ascii_lower (py "伺服电机振动") (py "伺服电机 异响") <= 1)%Q /\
  (tools._score ascii_lower (py "Servo 振动") (py "Servo 振动") == 1)%Q /\
  (tools._score ascii_lower (py "Servo") [] == 0)%Q.
Proof.
  destruct (score_bounds_identity_empty ascii_lower) as (Hb & Hid & Hempty).
  split; [apply Hb|]. split; [|apply Hempty].
  apply Hid; [apply ascii_lower_nonempty | done].
Defined.

Lemma plan_rule_precedence_witness :
  planner.task_type (planner.plan ascii_lower planner.Planner_default sample_request)
  = py "anomaly_diagnosis".
Proof.
  apply (proj2 (proj2 (plan_rule_precedence ascii_lower planner.Planner_default sample_request))).
  exists (py "告警"). split; [by left|]. apply contains_spec. by vm_compute.
Defined.

Lemma plan_query_nonempty_witness :
  planner.query (planner.plan ascii_lower planner.Planner_default (py " sop "))
  = strip (py " sop ") /\
  planner.query (planner.plan ascii_lower planner.Planner_default (py " sop ")) <> [].
Proof.
  apply (plan_query_nonempty ascii_lower planner.Planner_default (py " sop ")).
  exists 115%N. split; [|reflexivity].
  apply list_elem_of_In. vm_compute. tauto.
Defined.

Lemma solve_answer_contains_context_witness :
  substring (tools.context sample_retrieval)
    (solver.answer (solver.solve sample_plan sample_retrieval)).
Proof.
  apply (solve_answer_contains_context sample_plan sample_retrieval).
  intros H. by vm_compute in H.
Defined.

Lemma solve_empty_context_refusal_witness :
  solver.answer (solver.solve sample_plan sample_empty_retrieval)
  = py "未检索到相关知识，请转人工或补充更多信息。" /\
  solver.references (solver.solve sample_plan sample_empty_retrieval) = ∅ /\
  solver.plan (solver.solve sample_plan sample_empty_retrieval) = sample_plan.
Proof.
  apply (solve_empty_context_refusal sample_plan sample_empty_retrieval). reflexivity.
Defined.

Lemma verify_passed_and_confidence_witness :
  verifier.passed
    (verifier.verify sample_plan (solver.solve sample_plan sample_retrieval) sample_retrieval)
  = true /\
  verifier.confidence
    (verifier.verify sample_plan (solver.solve sample_plan sample_retrieval) sample_retrieval)
  = round2 (if Qltb 0 (tools.score sample_retrieval) then tools.score sample_retrieval
            else if verifier.passed
                      (verifier.verify sample_plan (solver.solve sample_plan sample_retrieval)
                         sample_retrieval)
                 then float_0_2 else 0) /\
  verifier.confidence
    (verifier.verify sample_plan (solver.solve sample_plan sample_retrieval) sample_retrieval)
  = round2 (3 # 4).
Proof.
  destruct (verify_passed_and_confidence sample_plan
              (solver.solve sample_plan sample_retrieval) sample_retrieval)
    as (Hpassed & Hclaim & Hpos & _).
  split; [|split].
  - apply Hpassed. split; intros H; by vm_compute in H.
  - apply Hclaim. apply Qle_bool_iff. vm_compute. reflexivity.
  - apply Hpos. by vm_compute.
Defined.

Lemma execute_unknown_tool_witness :
  exists r,
    tools.execute ascii_lower sample_executor
      (planner.mkTaskPlan (py "sop_lookup") (py "foo") (py "q") ∅) = Some r /\
    tools.context r = [] /\ tools.source r = py "unknown" /\ tools.score r = 0%Q /\
    tools.metadata r !! py "error" = Some (py "no tool named " ++ py "foo").
Proof.
  destruct (execute_unknown_tool ascii_lower sample_executor
              (planner.mkTaskPlan (py "sop_lookup") (py "foo") (py "q") ∅))
    as (r & Hr & Hc & Hs & Hz & Hm & _).
  - intros H. by vm_compute in H.
  - intros H. by vm_compute in H.
  - intros H. by vm_compute in H.
  - exists r. repeat split; done.
Defined.

Lemma execute_carries_plan_witness :
  match tools.execute ascii_lower sample_executor sample_plan with
  | Some r =>
      tools.task_type r = planner.task_type sample_plan /\
      tools.query r = planner.query sample_plan
  | None => False
  end.
Proof.
  destruct (tools.execute ascii_lower sample_executor sample_plan) as [r|] eqn:E.
  - exact (execute_carries_plan ascii_lower sample_executor sample_plan r E).
  - vm_compute in E. discriminate E.
Defined.

Lemma execute_context_empty_iff_score_zero_witness :
  match tools.execute ascii_lower sample_executor sample_plan with
  | Some r =>
      (tools.context r = [] <-> (tools.score r == 0)%Q) /\
      tools.context r <> [] /\ (0 < tools.score r)%Q
  | None => False
  end.
Proof.
  destruct (tools.execute ascii_lower sample_executor sample_plan) as [r|] eqn:E.
  - destruct (execute_context_empty_iff_score_zero ascii_lower sample_executor sample_plan r E)
      as (Hiff & _ & _).
    split; [exact Hiff|].
    vm_compute in E. injection E as <-. split; [discriminate | reflexivity].
  - vm_compute in E. discriminate E.
Defined.

Lemma best_match_strictly_greatest_first_witness :
  match tools.execute ascii_lower sample_executor sample_plan with
  | Some r =>
      tools.source r = py "anomaly_diagnostics.csv#A-01" /\
      exists i e,
        first_greatest ascii_lower (planner.query sample_plan) [py "symptom"; py "probable_causes"]
          sample_alerts i e (tools.score r) /\
        built_from (planner.tool_name sample_plan) e r /\
        i <> 1
  | None => False
  end.
Proof.
  destruct (tools.execute ascii_lower sample_executor sample_plan) as [r|] eqn:E;
    [|vm_compute in E; discriminate E].
  assert (tools.source r = py "anomaly_diagnostics.csv#A-01" /\ tools.context r <> []) as [Hsrc Hctx].
  { vm_compute in E. injection E as <-. split; [vm_compute; reflexivity | discriminate]. }
  split; [exact Hsrc|].
  destruct (proj2 (best_match_strictly_greatest_first ascii_lower) sample_executor sample_plan
              sample_alerts [py "symptom"; py "probable_causes"] r sample_corpus E Hctx)
    as (i & e & _ & Hfirst & Hbuilt & Htie).
  exists i, e. split; [exact Hfirst|]. split; [exact Hbuilt|].
  eapply (Htie 0 1); [lia | reflexivity | reflexivity | vm_compute; reflexivity].
Defined.

(** ** Stripping whitespace *)

Lemma lstrip_suffix s :
  exists sp, s = sp ++ lstrip s /\ Forall (fun c => isspace c = true) sp.
Proof.
  induction s as [|c s (sp & Hs & Hsp)]; [by exists []|].
  simpl. destruct (isspace c) eqn:Hc.
  - exists (c :: sp). split; [by rewrite Hs at 1 | by constructor].
  - by exists [].
Qed.

Lemma lstrip_head s c rest : lstrip s = c :: rest -> isspace c = false.
Proof.
  induction s as [|d s IH]; [done|]. simpl.
  destruct (isspace d) eqn:Hd; [done|]. by intros [= <- _].
Qed.

Lemma lstrip_fixed s : (forall c, head s = Some c -> isspace c = false) -> lstrip s = s.
Proof. destruct s as [|c s]; [done|]. intros H. simpl. by rewrite (H c). Qed.

Lemma lstrip_app_nonspace s c rest :
  isspace c = false -> lstrip (s ++ c :: rest) = lstrip s ++ c :: rest.
Proof.
  intros Hc. induction s as [|d s IH]; simpl; [by rewrite Hc|].
  by destruct (isspace d).
Qed.

Lemma rstrip_app_nonspace s c rest :
  isspace c = false -> rstrip (s ++ c :: rest) = s ++ c :: rstrip rest.
Proof.
  intros Hc. unfold rstrip.
  rewrite reverse_app, reverse_cons, <- app_assoc. simpl.
  rewrite lstrip_app_nonspace by done.
  by rewrite reverse_app, reverse_cons, reverse_involutive, <- app_assoc.
Qed.

Lemma rstrip_last s c : last (rstrip s) = Some c -> isspace c = false.
Proof.
  unfold rstrip. rewrite last_reverse.
  destruct (lstrip (reverse s)) as [|d rest] eqn:H; [done|].
  intros [= <-]. by eapply lstrip_head.
Qed.

Lemma rstrip_fixed s : (forall c, last s = Some c -> isspace c = false) -> rstrip s = s.
Proof.
  intros H. unfold rstrip. rewrite lstrip_fixed; [apply reverse_involutive|].
  intros c Hc. apply H. by rewrite <- head_reverse.
Qed.

Lemma rstrip_prefix s :
  exists sp, s = rstrip s ++ sp /\ Forall (fun c => isspace c = true) sp.
Proof.
  destruct (lstrip_suffix (reverse s)) as (sp & Hs & Hsp).
  exists (reverse sp). split; [|by apply Forall_reverse].
  unfold rstrip. rewrite <- reverse_app, <- Hs. by rewrite reverse_involutive.
Qed.

(** A stripped string neither starts nor ends with whitespace. *)
Lemma strip_head s c : head (strip s) = Some c -> isspace c = false.
Proof.
  unfold strip. intros Hh.
  destruct (rstrip_prefix (lstrip s)) as (sp & Hs & _).
  destruct (rstrip (lstrip s)) as [|d rest] eqn:Hr; [done|].
  injection Hh as ->. simpl in Hs. by apply (lstrip_head s c (rest ++ sp)).
Qed.

Lemma strip_last s c : last (strip s) = Some c -> isspace c = false.
Proof. apply rstrip_last. Qed.

Lemma strip_idempotent s : strip (strip s) = strip s.
Proof.
  unfold strip at 1. rewrite (lstrip_fixed (strip s)) by apply strip_head.
  apply rstrip_fixed, strip_last.
Qed.

Lemma strip_fixed s :
  (forall c, head s = Some c -> isspace c = false) ->
  (forall c, last s = Some c -> isspace c = false) ->
  strip s = s.
Proof. intros Hh Hl. unfold strip. rewrite lstrip_fixed by done. by apply rstrip_fixed. Qed.

(** ** Planner: priority, metadata, case, query *)

Section PlannerMore.

Variable lower : pystr -> pystr.

Lemma scan_markers_some items normalized level :
  planner.scan_markers items normalized = Some level ->
  exists marker, (marker, level) ∈ items /\ substring marker normalized.
Proof.
  induction items as [|[m l] items IH]; simpl; [done|].
  destruct (contains m normalized) eqn:Hc.
  - intros [= <-]. exists m. split; [by left | by apply contains_spec].
  - intros H. destruct (IH H) as (marker & Hin & Hsub). exists marker. split; [by right | done].
Qed.

Lemma scan_markers_first items normalized marker level :
  substring marker normalized ->
  (marker, level) ∈ items ->
  (forall m l, (m, l) ∈ items -> l = level) ->
  planner.scan_markers items normalized = Some level.
Proof.
  intros Hsub Hin Hall. induction items as [|[m l] items IH]; [by apply elem_of_nil in Hin|].
  simpl. destruct (contains m normalized) eqn:Hc.
  - f_equal. apply (Hall m l). by left.
  - apply elem_of_cons in Hin as [[= <- <-] | Hin].
    + apply contains_spec in Hsub. congruence.
    + apply IH; [done|]. intros m' l' H'. apply (Hall m' l'). by right.
Qed.

(** X3: The priority is ["high"] exactly when one of the three urgency
    markers occurs in the lower-cased request, and ["standard"]
    otherwise: the two ["standard"] markers of the table change nothing. *)
Theorem estimate_priority_high_iff (request : pystr) :
  (planner._estimate_priority lower request = py "high" \/
   planner._estimate_priority lower request = py "standard") /\
  (planner._estimate_priority lower request = py "high" <->
   exists marker, marker ∈ [py "紧急"; py "立即"; py "尽快"] /\ substring marker (lower request)).
Proof.
  unfold planner._estimate_priority, planner.markers.
  set (n := lower request).
  assert (py "standard" <> py "high") as Hne by (intros H; vm_compute in H; discriminate H).
  cbn [planner.scan_markers].
  destruct (contains (py "紧急") n) eqn:H1; [|destruct (contains (py "立即") n) eqn:H2;
    [|destruct (contains (py "尽快") n) eqn:H3]].
  - split; [by left|]. split; [|done]. intros _. exists (py "紧急").
    split; [apply list_elem_of_here | by apply contains_spec].
  - split; [by left|]. split; [|done]. intros _. exists (py "立即").
    split; [apply list_elem_of_further, list_elem_of_here | by apply contains_spec].
  - split; [by left|]. split; [|done]. intros _. exists (py "尽快").
    split; [do 2 apply list_elem_of_further; apply list_elem_of_here | by apply contains_spec].
  - assert (default (py "standard")
              (if contains (py "建议") n then Some (py "standard")
               else if contains (py "优化") n then Some (py "standard") else None)
            = py "standard") as ->.
    { destruct (contains (py "建议") n); [done|]. by destruct (contains (py "优化") n). }
    split; [by right|]. split; [done|].
    intros (marker & Hin & Hsub). apply contains_spec in Hsub.
    apply elem_of_cons in Hin as [-> | Hin]; [congruence|].
    apply elem_of_cons in Hin as [-> | Hin]; [congruence|].
    apply elem_of_cons in Hin as [-> | Hin]; [congruence|].
    by apply elem_of_nil in Hin.
Qed.

Lemma metadata_keys_distinct :
  py "matched_keywords" <> py "priority" /\ py "matched_keywords" <> py "reason" /\
  py "priority" <> py "reason".
Proof. repeat split; intros H; vm_compute in H; discriminate H. Qed.

Lemma scan_rules_metadata rules request p :
  planner.scan_rules lower rules request (lower request) = Some p ->
  planner.metadata p !! py "priority" = Some (planner._estimate_priority lower request) /\
  planner.metadata p !! py "reason" = None /\
  exists rule kw kws,
    rule ∈ rules /\
    planner.matched_keywords lower rule (lower request) = kw :: kws /\
    planner.metadata p !! py "matched_keywords" = Some (join (py ",") (kw :: kws)).
Proof.
  destruct metadata_keys_distinct as (H1 & H2 & H3).
  induction rules as [|rule rules IH]; simpl; [done|].
  destruct (planner.matched_keywords lower rule (lower request)) as [|kw kws] eqn:Hk.
  - intros H. destruct (IH H) as (Hp & Hr & rule' & kw' & kws' & Hin & Hm & Hl).
    split; [done|]. split; [done|]. exists rule', kw', kws'. split; [by right | done].
  - intros [= <-]. cbn [planner.metadata].
    split; [|split].
    + rewrite lookup_insert_ne by done. apply lookup_singleton_eq.
    + rewrite lookup_insert_ne by done. by apply lookup_singleton_ne.
    + exists rule, kw, kws. split; [by left|]. split; [done|]. apply lookup_insert_eq.
Qed.

(** X2: The metadata of a plan always hold the priority that
    [_estimate_priority] gives and a ["matched_keywords"] entry; the
    ["reason"] entry is there, with the value ["fallback"], exactly when
    no rule matches, and then ["matched_keywords"] is empty; otherwise
    ["matched_keywords"] lists the keywords of one rule that occur, in
    the rule's order, joined by commas. *)
Theorem plan_metadata (self : planner.Planner) (request : pystr) :
  planner.metadata (planner.plan lower self request) !! py "priority"
  = Some (planner._estimate_priority lower request) /\
  ((planner.metadata (planner.plan lower self request) !! py "reason" = Some (py "fallback") /\
    planner.metadata (planner.plan lower self request) !! py "matched_keywords" = Some [] /\
    forall rule, rule ∈ planner._TASK_RULES -> ~ rule_matches lower rule request) \/
   (planner.metadata (planner.plan lower self request) !! py "reason" = None /\
    exists rule kw kws,
      rule ∈ planner._TASK_RULES /\ rule_matches lower rule request /\
      planner.matched_keywords lower rule (lower request) = kw :: kws /\
      planner.metadata (planner.plan lower self request) !! py "matched_keywords"
      = Some (join (py ",") (kw :: kws)))).
Proof.
  destruct metadata_keys_distinct as (H1 & H2 & H3).
  unfold planner.plan.
  destruct (planner.scan_rules lower planner._TASK_RULES request (lower request)) as [p|] eqn:Hscan.
  - destruct (scan_rules_metadata _ _ _ Hscan) as (Hp & Hr & rule & kw & kws & Hin & Hm & Hl).
    split; [done|]. right. split; [done|]. exists rule, kw, kws.
    split; [done|]. split; [|done].
    destruct (planner.matched_keywords lower rule (lower request)) as [|k ks] eqn:Hk; [done|].
    assert (~ ~ rule_matches lower rule request) as Hnn.
    { intros Hn. apply matched_keywords_nil in Hn. congruence. }
    assert (In k (planner.matched_keywords lower rule (lower request))) as Hin'
      by (rewrite Hk; by left).
    apply filter_In in Hin' as [Hin' Hc].
    exists k. split; [by apply list_elem_of_In | by apply contains_spec].
  - cbn [planner.metadata]. split.
    + rewrite lookup_insert_ne by done. apply lookup_insert_eq.
    + left. split; [|split].
      * rewrite !lookup_insert_ne by done. apply lookup_singleton_eq.
      * apply lookup_insert_eq.
      * intros rule Hin Hm. apply list_elem_of_lookup in Hin as [i Hi].
        destruct (first_match_exists lower _ _ _ _ Hi Hm) as (i' & r' & _ & Hl & Hm' & Hmin).
        destruct (scan_rules_first lower _ _ _ _ Hl Hm' Hmin) as (p & Hp & _). congruence.
Qed.

Lemma scan_rules_same_lower rules r1 r2 normalized :
  match planner.scan_rules lower rules r1 normalized,
        planner.scan_rules lower rules r2 normalized with
  | Some p1, Some p2 =>
      planner.task_type p1 = planner.task_type p2 /\
      planner.tool_name p1 = planner.tool_name p2 /\
      (planner._estimate_priority lower r1 = planner._estimate_priority lower r2 ->
       planner.metadata p1 = planner.metadata p2)
  | None, None => True
  | _, _ => False
  end.
Proof.
  induction rules as [|rule rules IH]; simpl; [done|].
  destruct (planner.matched_keywords lower rule normalized); [exact IH|].
  cbn [planner.task_type planner.tool_name planner.metadata].
  split; [done|]. split; [done|]. by intros ->.
Qed.

(** X4: Classification does not look at letter case: two requests with the
    same lower-cased text get the same task type, tool name and
    metadata (only the query, taken from the original text, can
    differ). *)
Theorem plan_case_insensitive (self : planner.Planner) (r1 r2 : pystr) :
  lower r1 = lower r2 ->
  planner.task_type (planner.plan lower self r1) = planner.task_type (planner.plan lower self r2) /\
  planner.tool_name (planner.plan lower self r1) = planner.tool_name (planner.plan lower self r2) /\
  planner.metadata (planner.plan lower self r1) = planner.metadata (planner.plan lower self r2).
Proof.
  intros Hl.
  assert (planner._estimate_priority lower r1 = planner._estimate_priority lower r2) as Hp
    by (unfold planner._estimate_priority; by rewrite Hl).
  unfold planner.plan. rewrite <- Hl.
  pose proof (scan_rules_same_lower planner._TASK_RULES r1 r2 (lower r1)) as H.
  destruct (planner.scan_rules lower planner._TASK_RULES r1 (lower r1)),
           (planner.scan_rules lower planner._TASK_RULES r2 (lower r1)); try done.
  - destruct H as (Ht & Hn & Hm). auto.
  - cbn [planner.task_type planner.tool_name planner.metadata]. by rewrite Hp.
Qed.

(** X5: The query of a plan has no whitespace at either end, and planning
    the query again gives the same query. *)
Theorem plan_query_stripped (self : planner.Planner) (request : pystr) :
  (forall c, head (planner.query (planner.plan lower self request)) = Some c -> isspace c = false) /\
  (forall c, last (planner.query (planner.plan lower self request)) = Some c -> isspace c = false) /\
  planner.query (planner.plan lower self (planner.query (planner.plan lower self request)))
  = planner.query (planner.plan lower self request).
Proof.
  rewrite !plan_query. split; [apply strip_head|]. split; [apply strip_last|].
  apply strip_idempotent.
Qed.

End PlannerMore.

(** ** ToolExecutor: what is selected, and when *)

Section BestMatchMore.

Variable lower : pystr -> pystr.
Variable query : pystr.
Variable fields : list pystr.

Local Abbreviation score_of := (entry_score lower query fields).

Lemma best_fold_keeps_some (rest : list (gmap pystr pystr)) x q :
  (foldl (tools.best_step lower query fields) (Some x, q) rest).1 <> None.
Proof.
  revert x q. induction rest as [|y rest IH]; intros x q; [done|].
  simpl. unfold tools.best_step at 2. simpl. destruct (Qltb q _); apply IH.
Qed.

Lemma best_fold_none_all (entries : list (gmap pystr pystr)) bs s :
  foldl (tools.best_step lower query fields) (None, bs) entries = (None, s) ->
  s = bs /\ forall ej, ej ∈ entries -> (score_of ej <= bs)%Q.
Proof.
  intros Hfold. split; [by eapply best_fold_none|].
  revert Hfold. induction entries as [|x rest IH]; intros Hfold ej Hin;
    [by apply elem_of_nil in Hin|].
  simpl in Hfold. unfold tools.best_step at 2 in Hfold. simpl in Hfold.
  destruct (Qltb bs (tools._score lower query (tools.field_text x fields))) eqn:Hcmp.
  - exfalso. eapply best_fold_keeps_some. by rewrite Hfold.
  - apply Qltb_ge in Hcmp.
    apply elem_of_cons in Hin as [-> | Hin]; [done | by apply IH].
Qed.

(** [_best_match] returns no record, with the score 0.0, exactly when
    no record scores above 0; otherwise it returns a record. *)
Lemma best_match_none_iff (entries : list (gmap pystr pystr)) :
  tools._best_match lower entries query fields = (None, 0%Q) <->
  forall ej, ej ∈ entries -> (score_of ej <= 0)%Q.
Proof.
  split.
  - intros H. by apply best_fold_none_all in H as [_ H].
  - intros Hall.
    destruct (tools._best_match lower entries query fields) as [[e|] s] eqn:Hbm.
    + apply best_match_some in Hbm as (i & Hi & -> & Hpos & _).
      exfalso. apply list_elem_of_lookup_2 in Hi.
      apply (Qlt_not_le _ _ Hpos). by apply Hall.
    + by rewrite (best_match_none _ _ _ _ _ Hbm).
Qed.

End BestMatchMore.


Lemma best_match_empty_query (lower : pystr -> pystr) (fields : list pystr)
    (entries : list (gmap pystr pystr)) :
  tools._best_match lower entries [] fields = (None, 0%Q).
Proof.
  apply best_match_none_iff. intros ej _. unfold entry_score, tools._score. simpl. discriminate.
Qed.


Lemma best_match_exact_aux (lower : pystr -> pystr) (query : pystr) (fields : list pystr)
    (entries : list (gmap pystr pystr)) (i : nat) (e : gmap pystr pystr) :
  (forall s, s <> [] -> lower s <> []) ->
  entries !! i = Some e ->
  query <> [] -> tools.field_text e fields <> [] ->
  lower (tools.field_text e fields) = lower query ->
  exists i' e' s,
    tools._best_match lower entries query fields = (Some e', s) /\
    (s == 1)%Q /\ entries !! i' = Some e' /\ i' <= i.
Proof.
  intros Hlower Hi Hq Ht Heq.
  assert (entry_score lower query fields e == 1)%Q as Hone.
  { unfold entry_score, tools._score.
    destruct query as [|c query]; [done|].
    destruct (tools.field_text e fields) as [|d text]; [done|]. simpl.
    rewrite Heq. apply ratio_self. by apply Hlower. }
  destruct (tools._best_match lower entries query fields) as [[e'|] s] eqn:Hbm.
  - apply best_match_some in Hbm as (i' & Hi' & Hs & Hpos & Hall & Hbefore).
    exists i', e', s. split; [done|].
    assert (s == 1)%Q as Hs1.
    { apply Qle_antisym; [rewrite Hs; apply score_range|].
      rewrite <- Hone. by apply (Hall i). }
    split; [done|]. split; [done|].
    destruct (Nat.le_gt_cases i' i) as [|Hgt]; [done|].
    exfalso. specialize (Hbefore i e Hgt Hi). rewrite Hone, Hs1 in Hbefore.
    by apply Qlt_irrefl in Hbefore.
  - exfalso. pose proof (best_match_none _ _ _ _ _ Hbm) as ->.
    pose proof (proj1 (best_match_none_iff _ _ _ _) Hbm e) as Hle.
    rewrite Hone in Hle. apply (Qlt_not_le 0 1); [reflexivity|].
    apply Hle. by eapply list_elem_of_lookup_2.
Qed.


(** ** ToolExecutor: when [execute] raises *)

(** X9: [execute] returns a result (rather than raising [KeyError]) exactly
    when no record is selected, or the selected record has every key
    that the tool reads to build the context. *)
Theorem execute_returns_iff (lower : pystr -> pystr) (self : tools.ToolExecutor)
    (plan : planner.TaskPlan) :
  is_Some (tools.execute lower self plan) <->
  match (selected lower self plan).1 with
  | None => True
  | Some e => forall key, key ∈ tool_keys (planner.tool_name plan) -> is_Some (e !! key)
  end.
Proof.
  unfold tools.execute, selected, tool_corpus, tool_keys.
  unfold tools._run_anomaly_tool, tools._run_sop_tool, tools._run_bom_tool.
  repeat case_decide.
  4: { split; [done | by eexists]. }
  all: match goal with
    | |- context [tools._best_match ?l ?es ?q ?fs] =>
        destruct (tools._best_match l es q fs) as [[e|] s] eqn:Hbest
    end; cbn [fst]; [|split; [done | by eexists]].
  all: split.
  all: try (intros Hkeys;
       repeat match goal with
       | |- context [@lookup _ _ _ _ (py ?k) _] =>
           let v := fresh "v" in let Hv := fresh "Hv" in
           destruct (Hkeys (py k)) as [v Hv];
           [repeat first [apply list_elem_of_here | apply list_elem_of_further]
           | rewrite Hv; cbn [mbind option_bind]]
       end; by eexists).
  all: repeat match goal with
       | |- context [@lookup _ _ _ _ (py ?k) ?m] =>
           destruct (@lookup _ _ _ _ (py k) m) eqn:?; cbn [mbind option_bind];
           [|intros [? Hnone]; discriminate Hnone]
       end.
  all: intros _ key Hkey.
  all: repeat (apply elem_of_cons in Hkey as [-> | Hkey]; [by eexists|]).
  all: by apply elem_of_nil in Hkey.
Qed.

(** The metadata that [execute] attaches never use the keys ["source"]
    and ["score"]. *)
Lemma execute_metadata_keys (lower : pystr -> pystr) self plan r :
  tools.execute lower self plan = Some r ->
  tools.metadata r !! py "source" = None /\ tools.metadata r !! py "score" = None.
Proof.
  unfold tools.execute.
  unfold tools._run_anomaly_tool, tools._run_sop_tool, tools._run_bom_tool.
  repeat case_decide.
  4: { intros [= <-]. cbn [tools.metadata].
       split; apply lookup_singleton_ne; intros H'; vm_compute in H'; discriminate H'. }
  all: match goal with
    | |- context [tools._best_match ?l ?es ?q ?fs] =>
        destruct (tools._best_match l es q fs) as [[e|] s] eqn:Hbest
    end.
  all: try (intros [= <-]; cbn [tools.metadata tools._empty_result];
            split; apply lookup_singleton_ne; intros H'; vm_compute in H'; discriminate H').
  all: repeat match goal with
       | |- context [@lookup _ _ _ _ (py ?k) ?m] =>
           destruct (@lookup _ _ _ _ (py k) m); cbn [mbind option_bind];
           [|intros Hr; discriminate Hr]
       end.
  all: intros Hr; injection Hr as <-; cbn [tools.metadata].
  all: split.
  all: rewrite ?lookup_insert_ne by (intros H'; vm_compute in H'; discriminate H').
  all: apply lookup_singleton_ne; intros H'; vm_compute in H'; discriminate H'.
Qed.

(** ** Solver and Verifier on the results of the earlier stages *)

Lemma plan_priority (lower : pystr -> pystr) (self : planner.Planner) (request : pystr) :
  planner.metadata (planner.plan lower self request) !! py "priority"
  = Some (planner._estimate_priority lower request).
Proof.
  destruct metadata_keys_distinct as (H1 & H2 & H3).
  unfold planner.plan.
  destruct (planner.scan_rules lower planner._TASK_RULES request (lower request)) as [p|] eqn:Hscan.
  - by destruct (scan_rules_metadata _ _ _ _ Hscan) as (Hp & _).
  - cbn [planner.metadata]. rewrite lookup_insert_ne by done. apply lookup_insert_eq.
Qed.

(** X15: For a plan made by [plan], the reasoning of [solve] names the tool
    and the priority estimated from the request: the default
    ['standard'] of [metadata.get] is never what fills it. *)
Theorem solve_reasoning_of_plan (lower : pystr -> pystr) (self : planner.Planner)
    (request : pystr) (retrieval : tools.RetrievalResult) :
  solver.reasoning (solver.solve (planner.plan lower self request) retrieval)
  = py "tool=" ++ planner.tool_name (planner.plan lower self request) ++
    py "; priority=" ++ planner._estimate_priority lower request.
Proof.
  unfold solver.solve. destruct (if is_empty _ then _ else _) as [answer references].
  cbn [solver.reasoning]. by rewrite plan_priority.
Qed.

(** X16: For a result of [execute] with a context, the references of [solve]
    hold the source and the score formatted to two decimals (the
    metadata of the result never overwrite them), every metadata entry
    of the result, and nothing else. *)
Theorem solve_references_of_execute (lower : pystr -> pystr) (self : tools.ToolExecutor)
    (plan plan' : planner.TaskPlan) (r : tools.RetrievalResult) :
  tools.execute lower self plan = Some r ->
  tools.context r <> [] ->
  solver.references (solver.solve plan' r) !! py "source" = Some (tools.source r) /\
  solver.references (solver.solve plan' r) !! py "score" = Some (format_2f (tools.score r)) /\
  (forall k v, tools.metadata r !! k = Some v ->
               solver.references (solver.solve plan' r) !! k = Some v) /\
  (forall k, is_Some (solver.references (solver.solve plan' r) !! k) ->
             k = py "source" \/ k = py "score" \/ is_Some (tools.metadata r !! k)).
Proof.
  intros Hex Hctx. destruct (execute_metadata_keys _ _ _ _ Hex) as [Hsrc Hsc].
  assert (py "source" <> py "score") as Hne by (intros H; vm_compute in H; discriminate H).
  unfold solver.solve. destruct (tools.context r) as [|c ctx] eqn:Hc; [done|].
  cbn [is_empty solver.references]. split; [|split; [|split]].
  - rewrite lookup_union_r by done. apply lookup_insert_eq.
  - rewrite lookup_union_r by done. rewrite lookup_insert_ne by done. apply lookup_singleton_eq.
  - intros k v Hk. by apply lookup_union_Some_l.
  - intros k [v Hk]. apply lookup_union_Some_raw in Hk as [Hk | [_ Hk]].
    + right. right. by eexists.
    + destruct (decide (k = py "source")) as [|Hk1]; [by left|].
      right. left. rewrite lookup_insert_ne in Hk by done.
      by apply lookup_singleton_Some in Hk as [-> _].
Qed.

Lemma py_head_nonspace (lit : string) (c : char) (rest tail : pystr) :
  py lit = c :: rest -> isspace c = false -> strip (py lit ++ tail) <> [].
Proof.
  intros -> Hc Hnil. pose proof (strip_keeps c ((c :: rest) ++ tail)) as H.
  rewrite Hnil in H. apply (elem_of_nil c), H; [by left | done].
Qed.

(** The answer of [solve] is never blank. *)
Lemma solve_answer_not_blank plan retrieval :
  strip (solver.answer (solver.solve plan retrieval)) <> [].
Proof.
  unfold solver.solve. destruct (is_empty (tools.context retrieval)); cbn [solver.answer].
  - unfold solver.refusal. rewrite <- (app_nil_r (py _)).
    eapply py_head_nonspace; [vm_compute; reflexivity | reflexivity].
  - unfold solver._compose_answer.
    repeat case_decide; (eapply py_head_nonspace; [vm_compute; reflexivity | reflexivity]).
Qed.

Lemma verify_of_solve_aux (plan plan' : planner.TaskPlan) (retrieval : tools.RetrievalResult) :
  verifier.passed (verifier.verify plan' (solver.solve plan retrieval) retrieval)
  = negb (is_empty (tools.context retrieval)) /\
  verifier.feedback (verifier.verify plan' (solver.solve plan retrieval) retrieval)
  = (if is_empty (tools.context retrieval)
     then py "缺少检索上下文，建议人工复核" else py "通过校验").
Proof.
  pose proof (solve_answer_not_blank plan retrieval) as Hnb.
  apply is_empty_false in Hnb.
  unfold verifier.verify. cbn [verifier.passed verifier.feedback].
  rewrite Hnb. cbn [negb]. rewrite andb_true_r.
  by destruct (is_empty (tools.context retrieval)).
Qed.

(** X17: After [solve], [verify] passes exactly when the retrieval has a
    context: the feedback is the passed message or the missing-context
    message, never the empty-answer message. *)
Theorem verify_of_solve (plan plan' : planner.TaskPlan) (retrieval : tools.RetrievalResult) :
  verifier.passed (verifier.verify plan' (solver.solve plan retrieval) retrieval)
  = negb (is_empty (tools.context retrieval)) /\
  verifier.feedback (verifier.verify plan' (solver.solve plan retrieval) retrieval)
  = (if is_empty (tools.context retrieval)
     then py "缺少检索上下文，建议人工复核" else py "通过校验") /\
  verifier.answer (verifier.verify plan' (solver.solve plan retrieval) retrieval)
  = solver.answer (solver.solve plan retrieval).
Proof.
  pose proof (solve_answer_not_blank plan retrieval) as Hnb.
  apply is_empty_false in Hnb.
  unfold verifier.verify. cbn [verifier.passed verifier.feedback verifier.answer].
  rewrite Hnb. cbn [negb]. rewrite andb_true_r.
  by destruct (is_empty (tools.context retrieval)).
Qed.

(** X19: In the pipeline the confidence is the score of the retrieval,
    rounded to two decimals, and the result passes exactly when that
    score is above 0: the fallback 0.2 of [verify], for a context with
    a zero score, is never taken. *)
Theorem pipeline_confidence (lower : pystr -> pystr) (self : tools.ToolExecutor)
    (plan : planner.TaskPlan) (r : tools.RetrievalResult) :
  tools.execute lower self plan = Some r ->
  verifier.confidence (verifier.verify plan (solver.solve plan r) r) = round2 (tools.score r) /\
  (verifier.passed (verifier.verify plan (solver.solve plan r) r) = true <->
   (0 < tools.score r)%Q).
Proof.
  intros Hex.
  assert ((tools.context r = [] /\ tools.score r = 0%Q) \/
          (tools.context r <> [] /\ (0 < tools.score r)%Q)) as Hcase.
  { apply execute_cases in Hex as (_ & _ & [Hunk | [Hnone | Hsome]]).
    - left. by destruct Hunk as (_ & ? & _ & ? & _).
    - left. by destruct Hnone as (_ & _ & ->).
    - right. destruct Hsome as (e & Hsel & [[entries fields] Hc] & Hctx).
      split; [done|]. unfold selected in Hsel. rewrite Hc in Hsel.
      by apply best_match_some in Hsel as (i & _ & _ & Hpos & _). }
  destruct (verify_of_solve_aux plan plan r) as [Hp _].
  rewrite Hp. unfold verifier.verify. cbn [verifier.confidence].
  destruct Hcase as [[Hctx Hs] | [Hctx Hs]].
  - rewrite Hctx, Hs. cbn. split; [reflexivity|]. split; [done|].
    intros H. by apply Qlt_irrefl in H.
  - apply is_empty_false in Hctx as Hctx'. rewrite Hctx'. cbn [negb].
    assert (Qeq_bool (tools.score r) 0 = false) as ->.
    { destruct (Qeq_bool (tools.score r) 0) eqn:E; [|done].
      apply Qeq_bool_iff in E. rewrite E in Hs. by apply Qlt_irrefl in Hs. }
    cbn [negb]. done.
Qed.

(** ** The pipeline when nothing is selected *)

Lemma execute_nothing_selected (lower : pystr -> pystr) (self : tools.ToolExecutor)
    (plan : planner.TaskPlan) :
  (selected lower self plan).1 = None ->
  exists r, tools.execute lower self plan = Some r /\
            tools.context r = [] /\ tools.score r = 0%Q.
Proof.
  unfold tools.execute, selected, tool_corpus.
  unfold tools._run_anomaly_tool, tools._run_sop_tool, tools._run_bom_tool.
  repeat case_decide.
  4: { intros _. eexists. split; [reflexivity|]. by cbn. }
  all: match goal with |- context [tools._best_match ?l ?es ?q ?fs] =>
         destruct (tools._best_match l es q fs) as [[e|] s] end.
  all: cbn [fst]; intros Hnone; try discriminate Hnone.
  all: eexists; split; [reflexivity|]; by cbn.
Qed.

Lemma refusal_pipeline (plan : planner.TaskPlan) (r : tools.RetrievalResult) :
  tools.context r = [] -> tools.score r = 0%Q ->
  solver.answer (solver.solve plan r) = solver.refusal /\
  solver.references (solver.solve plan r) = ∅ /\
  verifier.passed (verifier.verify plan (solver.solve plan r) r) = false /\
  verifier.feedback (verifier.verify plan (solver.solve plan r) r)
  = py "缺少检索上下文，建议人工复核" /\
  verifier.confidence (verifier.verify plan (solver.solve plan r) r) = 0%Q.
Proof.
  intros Hctx Hs. unfold verifier.verify, solver.solve. rewrite Hctx, Hs.
  cbn [is_empty solver.answer solver.references negb andb
       verifier.passed verifier.feedback verifier.confidence].
  repeat split.
Qed.

(** X20: When no record of the plan's corpus is selected (or the tool is
    unknown), the pipeline ends in the refusal: [execute] returns a
    result without context, [solve] answers with the refusal text and
    no references, and [verify] fails it with confidence 0. *)
Theorem nothing_selected_pipeline (lower : pystr -> pystr) (self : tools.ToolExecutor)
    (plan : planner.TaskPlan) :
  (selected lower self plan).1 = None ->
  exists r, tools.execute lower self plan = Some r /\
    tools.context r = [] /\
    solver.answer (solver.solve plan r) = solver.refusal /\
    solver.references (solver.solve plan r) = ∅ /\
    verifier.passed (verifier.verify plan (solver.solve plan r) r) = false /\
    verifier.feedback (verifier.verify plan (solver.solve plan r) r)
    = py "缺少检索上下文，建议人工复核" /\
    verifier.confidence (verifier.verify plan (solver.solve plan r) r) = 0%Q.
Proof.
  intros Hsel. destruct (execute_nothing_selected lower self plan Hsel) as (r & Hex & Hctx & Hs).
  exists r. split; [done|]. split; [done|]. by apply refusal_pipeline.
Qed.

(** X21: A request of white space only (the empty request included) is
    refused by the pipeline: its plan has the empty query, and a result
    that [execute] returns for it has no context, the answer is the
    refusal text and the verification fails with confidence 0. *)
Theorem blank_request_pipeline (lower : pystr -> pystr) (planner_ : planner.Planner)
    (self : tools.ToolExecutor) (request : pystr) (r : tools.RetrievalResult) :
  Forall (fun c => isspace c = true) request ->
  tools.execute lower self (planner.plan lower planner_ request) = Some r ->
  planner.query (planner.plan lower planner_ request) = [] /\
  tools.query r = [] /\
  tools.context r = [] /\
  solver.answer (solver.solve (planner.plan lower planner_ request) r) = solver.refusal /\
  verifier.passed (verifier.verify (planner.plan lower planner_ request)
                     (solver.solve (planner.plan lower planner_ request) r) r) = false /\
  verifier.confidence (verifier.verify (planner.plan lower planner_ request)
                         (solver.solve (planner.plan lower planner_ request) r) r) = 0%Q.
Proof.
  intros Hsp. set (plan := planner.plan lower planner_ request). intros Hex.
  assert (planner.query plan = []) as Hq.
  { unfold plan. rewrite plan_query. by apply strip_all_space. }
  assert ((selected lower self plan).1 = None) as Hsel.
  { unfold selected. rewrite Hq. destruct (tool_corpus self _) as [[entries fields]|]; [|done].
    by rewrite best_match_empty_query. }
  destruct (execute_nothing_selected lower self plan Hsel) as (r' & Hex' & Hctx & Hs).
  rewrite Hex in Hex'. injection Hex' as <-.
  split; [done|].
  split. { apply execute_cases in Hex as (_ & -> & _). done. }
  split; [done|].
  by destruct (refusal_pipeline plan r Hctx Hs) as (? & _ & ? & _ & ?).
Qed.

(** ** Splitting strings *)

Lemma split_nonempty sep maxsplit s : split sep maxsplit s <> [].
Proof.
  revert maxsplit. induction s as [|c s IH]; intros maxsplit; [done|]. simpl.
  destruct (_ && _); [done|]. by destruct (split sep maxsplit s).
Qed.

Lemma split_last sep maxsplit s : is_Some (last (split sep maxsplit s)).
Proof.
  pose proof (split_nonempty sep maxsplit s) as H.
  destruct (split sep maxsplit s) as [|x l] using rev_ind; [done|].
  rewrite last_snoc. by eexists.
Qed.

Lemma split_zero sep s : split sep (Some 0) s = [s].
Proof.
  induction s as [|c s IH]; [done|]. simpl. rewrite andb_false_r. by rewrite IH.
Qed.

Lemma split_no_sep sep maxsplit s : sep ∉ s -> split sep maxsplit s = [s].
Proof.
  induction s as [|c s IH]; intros Hs; [done|]. simpl.
  apply not_elem_of_cons in Hs as [Hc Hs].
  destruct (N.eqb_spec c sep) as [->|_]; [done|]. cbn [andb]. by rewrite IH.
Qed.

Lemma split_app_sep sep s rest :
  sep ∉ s -> split sep None (s ++ sep :: rest) = s :: split sep None rest.
Proof.
  induction s as [|c s IH]; intros Hs.
  - simpl. by rewrite N.eqb_refl.
  - apply not_elem_of_cons in Hs as [Hc Hs]. simpl.
    destruct (N.eqb_spec c sep) as [->|_]; [done|]. cbn [andb]. by rewrite IH.
Qed.

Lemma split_once sep s rest :
  sep ∉ s -> split sep (Some 1) (s ++ sep :: rest) = [s; rest].
Proof.
  induction s as [|c s IH]; intros Hs.
  - simpl. rewrite N.eqb_refl. cbn. by rewrite split_zero.
  - apply not_elem_of_cons in Hs as [Hc Hs]. simpl.
    destruct (N.eqb_spec c sep) as [->|_]; [done|]. cbn [andb]. by rewrite IH.
Qed.

Lemma split_length sep s : length (split sep None s) = S (occurrences sep s).
Proof.
  unfold occurrences. induction s as [|c s IH]; [done|]. simpl.
  destruct (N.eqb_spec c sep) as [->|Hne]; cbn [andb negb].
  - rewrite filter_cons_True by done. simpl. by rewrite IH.
  - rewrite filter_cons_False by done. rewrite <- IH.
    pose proof (split_nonempty sep None s). by destruct (split sep None s).
Qed.

(** A prefix without the separator goes to the first piece. *)
Lemma split_app_l sep pre s :
  sep ∉ pre ->
  exists piece pieces, split sep None s = piece :: pieces /\
                       split sep None (pre ++ s) = (pre ++ piece) :: pieces.
Proof.
  intros Hpre. pose proof (split_nonempty sep None s) as Hne.
  destruct (split sep None s) as [|piece pieces] eqn:Hs; [done|].
  exists piece, pieces. split; [done|].
  induction pre as [|c pre IH]; [done|].
  apply not_elem_of_cons in Hpre as [Hc Hpre]. simpl.
  destruct (N.eqb_spec c sep) as [->|_]; [done|]. cbn [andb]. by rewrite IH.
Qed.

(** A suffix without the separator goes to the last piece. *)
Lemma split_app_r sep s post :
  sep ∉ post ->
  exists pieces piece, split sep None s = pieces ++ [piece] /\
                       split sep None (s ++ post) = pieces ++ [piece ++ post].
Proof.
  intros Hpost. induction s as [|c s (pieces & piece & Hs & Hsp)].
  - exists [], []. split; [done|]. simpl. by apply split_no_sep.
  - simpl. destruct (N.eqb_spec c sep) as [->|_]; cbn [andb negb].
    + exists ([] :: pieces), piece. rewrite Hs, Hsp. done.
    + rewrite Hs, Hsp. destruct pieces as [|p ps]; simpl.
      * by exists [], (c :: piece).
      * by exists ((c :: p) :: ps), piece.
Qed.

Lemma lstrip_app_space sp s :
  Forall (fun c => isspace c = true) sp -> lstrip (sp ++ s) = lstrip s.
Proof. induction 1 as [|c sp Hc _ IH]; [done|]. simpl. by rewrite Hc. Qed.

Lemma rstrip_app_space s sp :
  Forall (fun c => isspace c = true) sp -> rstrip (s ++ sp) = rstrip s.
Proof.
  intros Hsp. unfold rstrip. rewrite reverse_app, lstrip_app_space; [done|].
  by apply Forall_reverse.
Qed.

Lemma strip_app_space_l sp s :
  Forall (fun c => isspace c = true) sp -> strip (sp ++ s) = strip s.
Proof. intros Hsp. unfold strip. by rewrite lstrip_app_space. Qed.

Lemma strip_app_space_r s sp :
  Forall (fun c => isspace c = true) sp -> strip (s ++ sp) = strip s.
Proof.
  intros Hsp. induction s as [|c s IH].
  - rewrite app_nil_l. by rewrite strip_all_space.
  - unfold strip in *. rewrite <- app_comm_cons. cbn [lstrip].
    destruct (isspace c); [exact IH|].
    rewrite app_comm_cons. by apply rstrip_app_space.
Qed.

Lemma space_not_sep sep sp :
  isspace sep = false -> Forall (fun c => isspace c = true) sp -> sep ∉ sp.
Proof.
  intros Hsep Hsp Hin. rewrite Forall_forall in Hsp. apply Hsp in Hin. congruence.
Qed.

(** Stripping the string first changes no stripped piece. *)
Lemma split_strip sep s :
  isspace sep = false ->
  strip <$> split sep None (strip s) = strip <$> split sep None s.
Proof.
  intros Hsep.
  destruct (lstrip_suffix s) as (sp & Hs & Hsp).
  destruct (rstrip_prefix (lstrip s)) as (sp' & Hs' & Hsp').
  fold (strip s) in Hs'.
  rewrite Hs at 2. rewrite Hs'.
  destruct (split_app_r sep (strip s) sp') as (pieces & piece & H1 & H2);
    [by apply space_not_sep|].
  destruct (split_app_l sep sp (strip s ++ sp')) as (p & ps & H3 & H4);
    [by apply space_not_sep|].
  rewrite H4, H1. rewrite H2 in H3.
  rewrite fmap_app, fmap_cons. cbn [fmap list_fmap].
  rewrite (strip_app_space_l sp p Hsp).
  transitivity (strip <$> (pieces ++ [piece ++ sp'])).
  - rewrite fmap_app. cbn [fmap list_fmap]. by rewrite strip_app_space_r.
  - by rewrite H3.
Qed.
(** ** ToolExecutor: loading the work-order corpus *)

Example separators : py "|" = [tools.BAR] /\ py ":" = [tools.COLON] /\ py "#" = [35%N].
Proof. vm_compute. done. Qed.

(** What the loop body does with a line: it never raises; it skips
    the line or appends the record of its first four fields. *)
Lemma bom_line_cases line :
  (tools.bom_line line = Some None /\
   (strip line = [] \/ startswith (py "#") (strip line) = true \/
    length (split tools.BAR None (strip line)) < 4)) \/
  (exists p0 p1 p2 p3 more w d,
     strip line <> [] /\ startswith (py "#") (strip line) = false /\
     strip <$> split tools.BAR None (strip line) = p0 :: p1 :: p2 :: p3 :: more /\
     last (split tools.COLON (Some 1) p2) = Some w /\
     last (split tools.COLON (Some 1) p3) = Some d /\
     tools.bom_line line = Some (Some (bom_record p0 p1 (strip w) (strip d)))).
Proof.
  unfold tools.bom_line. cbv zeta.
  destruct (strip line) as [|c0 s0] eqn:Hstrip.
  { left. split; [done | by left]. }
  cbn [is_empty orb]. destruct (startswith (py "#") (c0 :: s0)) eqn:Hhash.
  { left. split; [done | by right; left]. }
  destruct (strip <$> split tools.BAR None (c0 :: s0))
    as [|p0 [|p1 [|p2 [|p3 more]]]] eqn:Hparts.
  1-4: left; split; [done|]; right; right;
       apply (f_equal length) in Hparts; rewrite length_fmap in Hparts;
       rewrite Hparts; simpl; lia.
  right.
  destruct (split_last tools.COLON (Some 1) p2) as [w Hw].
  destruct (split_last tools.COLON (Some 1) p3) as [d Hd].
  exists p0, p1, p2, p3, more, w, d. repeat (split; [done|]).
  cbn [length Nat.ltb Nat.leb tools.index lookup list_lookup mbind option_bind].
  rewrite Hw, Hd. reflexivity.
Qed.

Lemma bom_lines_spec (P : gmap pystr pystr -> Prop) lines : forall entries,
  (forall line e, line ∈ lines -> tools.bom_line line = Some (Some e) -> P e) ->
  Forall P entries ->
  exists entries', tools.bom_lines entries lines = Some entries' /\ Forall P entries'.
Proof.
  induction lines as [|line lines IH]; intros entries HP Hentries.
  { by exists entries. }
  cbn [tools.bom_lines].
  assert (forall line' e, line' ∈ lines -> tools.bom_line line' = Some (Some e) -> P e) as HP'.
  { intros line' e Hin. apply HP. by right. }
  destruct (bom_line_cases line) as [[Hl _] | (p0 & p1 & p2 & p3 & more & w & d & Hl)].
  - rewrite Hl. cbn [mbind option_bind]. by apply IH.
  - destruct Hl as (_ & _ & _ & _ & _ & Hl). rewrite Hl. cbn [mbind option_bind].
    apply IH; [done|]. apply Forall_app. split; [done|].
    apply Forall_singleton. apply (HP line); [by left | done].
Qed.

Lemma bom_line_record line e :
  tools.bom_line line = Some (Some e) ->
  exists asset issue work_order advice,
    e = bom_record asset issue work_order advice /\
    strip asset = asset /\ strip issue = issue /\
    strip work_order = work_order /\ strip advice = advice.
Proof.
  intros He.
  destruct (bom_line_cases line) as [[Hl _] | (p0 & p1 & p2 & p3 & more & w & d & Hl)].
  { rewrite Hl in He. discriminate He. }
  destruct Hl as (_ & _ & Hparts & _ & _ & Hl). rewrite Hl in He. injection He as <-.
  exists p0, p1, (strip w), (strip d). split; [done|].
  assert (forall p, p ∈ p0 :: p1 :: p2 :: p3 :: more -> strip p = p) as Hs.
  { intros p Hp. rewrite <- Hparts in Hp.
    apply list_elem_of_fmap in Hp as (x & -> & _). apply strip_idempotent. }
  split; [apply Hs; by left|]. split; [apply Hs; right; by left|].
  split; apply strip_idempotent.
Qed.

Lemma load_bom_corpus_records_aux (file : option pystr) :
  exists entries, tools._load_bom_corpus file = Some entries /\
    Forall (fun e => exists asset issue work_order advice,
              e = bom_record asset issue work_order advice /\
              strip asset = asset /\ strip issue = issue /\
              strip work_order = work_order /\ strip advice = advice) entries.
Proof.
  destruct file as [text|]; [|by exists []].
  cbn [tools._load_bom_corpus]. apply bom_lines_spec; [|done].
  intros line e _. apply bom_line_record.
Qed.

(** X11: [_load_bom_corpus] never raises; a missing file gives the
    empty list; and every record it loads has the four keys [asset],
    [issue], [work_order] and [advice] and no others, each value
    without white space at either end. *)
Theorem load_bom_corpus_records (file : option pystr) :
  exists entries, tools._load_bom_corpus file = Some entries /\
    (file = None -> entries = []) /\
    Forall (fun e => exists asset issue work_order advice,
              e = bom_record asset issue work_order advice /\
              strip asset = asset /\ strip issue = issue /\
              strip work_order = work_order /\ strip advice = advice) entries.
Proof.
  destruct (load_bom_corpus_records_aux file) as (entries & Hload & Hrec).
  exists entries. split; [done|]. split; [|done].
  intros ->. cbn [tools._load_bom_corpus] in Hload. by injection Hload as <-.
Qed.

Lemma bom_keys_distinct :
  py "asset" <> py "issue" /\ py "asset" <> py "work_order" /\ py "asset" <> py "advice" /\
  py "issue" <> py "work_order" /\ py "issue" <> py "advice" /\
  py "work_order" <> py "advice".
Proof. repeat split; intros H; vm_compute in H; discriminate H. Qed.

Lemma bom_record_keys asset issue work_order advice key :
  key ∈ tool_keys (py "workorder_recommendation") ->
  is_Some (bom_record asset issue work_order advice !! key).
Proof.
  destruct bom_keys_distinct as (H1 & H2 & H3 & H4 & H5 & H6).
  unfold tool_keys.
  rewrite decide_False by (intros H; vm_compute in H; discriminate H).
  rewrite decide_False by (intros H; vm_compute in H; discriminate H).
  rewrite decide_True by done.
  unfold bom_record. intros Hk.
  repeat (apply elem_of_cons in Hk as [-> | Hk];
          [rewrite ?lookup_insert_ne by done;
           first [rewrite lookup_insert_eq | rewrite lookup_singleton_eq]; by eexists|]).
  by apply elem_of_nil in Hk.
Qed.

(** X14: With the work-order corpus that [_load_bom_corpus] loads, whatever
    the file holds, [execute] does not raise for a plan of the
    work-order tool: a selected record has every key the tool reads. *)
Theorem load_bom_corpus_execute (lower : pystr -> pystr) (file : option pystr)
    (anomaly sop entries : list (gmap pystr pystr)) (plan : planner.TaskPlan) :
  tools._load_bom_corpus file = Some entries ->
  planner.tool_name plan = py "workorder_recommendation" ->
  is_Some (tools.execute lower (tools.mkToolExecutor anomaly sop entries) plan).
Proof.
  intros Hload Htool.
  destruct (load_bom_corpus_records_aux file) as (entries' & Hload' & Hrec).
  rewrite Hload in Hload'. injection Hload' as <-.
  apply execute_returns. intros es fields e key Hc He Hk.
  rewrite Htool in Hc, Hk. unfold tool_corpus in Hc.
  rewrite decide_False in Hc by (intros H; vm_compute in H; discriminate H).
  rewrite decide_False in Hc by (intros H; vm_compute in H; discriminate H).
  rewrite decide_True in Hc by done. injection Hc as <- <-.
  cbn [tools._bom_entries] in He.
  rewrite Forall_forall in Hrec. destruct (Hrec e He) as (a & i & w & d & -> & _).
  by apply bom_record_keys.
Qed.
Lemma split_strip_length line :
  length (split tools.BAR None (strip line)) = S (occurrences tools.BAR line).
Proof.
  rewrite <- split_length.
  rewrite <- (length_fmap strip), <- (length_fmap strip (split _ _ line)).
  by rewrite split_strip.
Qed.

Lemma bom_line_loadable line :
  bom_loadable line = true <-> exists e, tools.bom_line line = Some (Some e).
Proof.
  unfold bom_loadable. rewrite !andb_true_iff, !negb_true_iff, Nat.leb_le.
  destruct (bom_line_cases line) as [[Hl Hskip] | (p0 & p1 & p2 & p3 & more & w & d & Hl)].
  - rewrite Hl. rewrite split_strip_length in Hskip. split.
    + intros [[Hne Hhash] Hbars]. destruct Hskip as [Hs | [Hs | Hs]].
      * rewrite Hs in Hne. discriminate Hne.
      * rewrite Hs in Hhash. discriminate Hhash.
      * lia.
    + intros [e He]. discriminate He.
  - destruct Hl as (Hne & Hhash & Hparts & _ & _ & Hl). split; [by eexists|]. intros _.
    split; [split; [by apply is_empty_false | done]|].
    apply (f_equal length) in Hparts. rewrite length_fmap, split_strip_length in Hparts.
    simpl in Hparts. lia.
Qed.

Lemma bom_lines_order lines : forall entries,
  exists entries', tools.bom_lines entries lines = Some (entries ++ entries') /\
    Forall2 (fun line e => tools.bom_line line = Some (Some e))
            (List.filter bom_loadable lines) entries'.
Proof.
  induction lines as [|line lines IH]; intros entries.
  { exists []. split; [by rewrite app_nil_r | constructor]. }
  cbn [tools.bom_lines List.filter].
  destruct (bom_loadable line) eqn:Hload.
  - apply bom_line_loadable in Hload as [e He]. rewrite He. cbn [mbind option_bind].
    destruct (IH (entries ++ [e])) as (es & Hes & Hall).
    exists (e :: es). split; [by rewrite Hes, <- app_assoc | by constructor].
  - destruct (bom_line_cases line) as [[Hl _] | (p0 & p1 & p2 & p3 & more & w & d & Hl)].
    + rewrite Hl. cbn [mbind option_bind]. apply IH.
    + destruct Hl as (_ & _ & _ & _ & _ & Hl).
      assert (bom_loadable line = true) as Ht by (apply bom_line_loadable; by eexists).
      congruence.
Qed.

(** X12: [_load_bom_corpus] loads one record for each line that is not
    blank, is not a comment and has at least three [|], in the order of
    the lines; every other line is skipped. *)
Theorem load_bom_corpus_order (text : pystr) :
  exists entries, tools._load_bom_corpus (Some text) = Some entries /\
    Forall2 (fun line e => tools.bom_line line = Some (Some e))
            (List.filter bom_loadable (splitlines text)) entries.
Proof.
  cbn [tools._load_bom_corpus]. apply (bom_lines_order (splitlines text) []).
Qed.

Lemma strip_rstrip s : strip (rstrip s) = strip s.
Proof.
  destruct (rstrip_prefix s) as (sp & Hs & Hsp).
  rewrite Hs at 2. by rewrite strip_app_space_r.
Qed.

Lemma lstrip_incl c s : c ∈ lstrip s -> c ∈ s.
Proof.
  destruct (lstrip_suffix s) as (sp & Hs & _). intros Hc. rewrite Hs.
  apply elem_of_app. by right.
Qed.

Lemma app_cons_assoc {A} (l : list A) (c : A) (m r : list A) :
  l ++ c :: m ++ r = (l ++ c :: m) ++ r.
Proof. by rewrite <- app_assoc. Qed.

(** The text after the first [:] of a field, as the loader takes it. *)
Lemma after_colon label value :
  tools.COLON ∉ label ->
  strip <$> last (split tools.COLON (Some 1) (strip (label ++ tools.COLON :: value)))
  = Some (strip value).
Proof.
  intros Hlabel. unfold strip at 2.
  rewrite lstrip_app_nonspace by reflexivity.
  rewrite rstrip_app_nonspace by reflexivity.
  rewrite split_once by (intros Hc; by apply Hlabel, lstrip_incl).
  cbn [last fmap option_fmap option_map]. by rewrite strip_rstrip.
Qed.

(** X13: A line [asset|issue|label:work_order|label:advice], with or
    without further [|]-separated fields after it, is loaded as the
    record of these four values, each stripped of the white space
    around it. *)
Theorem bom_line_parses (asset issue label1 work_order label2 advice more : pystr) :
  tools.BAR ∉ asset -> tools.BAR ∉ issue ->
  tools.BAR ∉ label1 -> tools.BAR ∉ work_order ->
  tools.BAR ∉ label2 -> tools.BAR ∉ advice ->
  tools.COLON ∉ label1 -> tools.COLON ∉ label2 ->
  more = [] \/ head more = Some tools.BAR ->
  startswith (py "#")
    (strip (asset ++ py "|" ++ issue ++ py "|" ++ label1 ++ py ":" ++ work_order ++
            py "|" ++ label2 ++ py ":" ++ advice ++ more)) = false ->
  tools.bom_line (asset ++ py "|" ++ issue ++ py "|" ++ label1 ++ py ":" ++ work_order ++
                  py "|" ++ label2 ++ py ":" ++ advice ++ more)
  = Some (Some (bom_record (strip asset) (strip issue) (strip work_order) (strip advice))).
Proof.
  destruct separators as (-> & -> & _).
  intros Ha Hi Hl1 Hw Hl2 Hd Hc1 Hc2 Hmore Hhash.
  set (line := asset ++ _) in *.
  assert (exists rest, split tools.BAR None line =
            asset :: issue :: (label1 ++ tools.COLON :: work_order) ::
            (label2 ++ tools.COLON :: advice) :: rest) as [rest Hsplit].
  { unfold line. cbn [app].
    rewrite split_app_sep by done. rewrite split_app_sep by done.
    rewrite (app_cons_assoc label1 tools.COLON work_order).
    assert (tools.BAR ∉ label1 ++ tools.COLON :: work_order) as H3.
    { rewrite elem_of_app, elem_of_cons. intros [?|[?|?]]; [done|discriminate|done]. }
    rewrite split_app_sep by done.
    assert (tools.BAR ∉ label2 ++ tools.COLON :: advice) as H4.
    { rewrite elem_of_app, elem_of_cons. intros [?|[?|?]]; [done|discriminate|done]. }
    rewrite (app_cons_assoc label2 tools.COLON advice).
    destruct Hmore as [-> | Hmore].
    - rewrite app_nil_r. rewrite split_no_sep by done. by exists [].
    - destruct more as [|c more']; [done|]. injection Hmore as ->.
      rewrite split_app_sep by done. by eexists. }
  destruct (bom_line_cases line) as [[_ Hskip] | (p0 & p1 & p2 & p3 & more' & w & d & Hl)].
  - exfalso. rewrite split_strip_length, <- split_length, Hsplit in Hskip.
    destruct Hskip as [Hs | [Hs | Hs]].
    + assert (tools.BAR ∈ strip line) as Hin.
      { apply strip_keeps; [|reflexivity]. unfold line. apply elem_of_app. right. by left. }
      rewrite Hs in Hin. by apply elem_of_nil in Hin.
    + congruence.
    + simpl in Hs. lia.
  - destruct Hl as (_ & _ & Hparts & Hw' & Hd' & ->).
    rewrite split_strip in Hparts by reflexivity. rewrite Hsplit in Hparts.
    cbn [fmap list_fmap] in Hparts. injection Hparts as <- <- <- <- _.
    pose proof (after_colon label1 work_order Hc1) as H1. rewrite Hw' in H1.
    pose proof (after_colon label2 advice Hc2) as H2. rewrite Hd' in H2.
    cbn [fmap option_fmap option_map] in H1, H2. by injection H1 as ->; injection H2 as ->.
Qed.
(** ** The pipeline on a perfect match *)

Lemma round_half_even_proper x y : (x == y)%Q -> round_half_even x = round_half_even y.
Proof.
  intros H. unfold round_half_even.
  rewrite (Qfloor_comp x y H).
  assert ((x - inject_Z (Qfloor y) ?= 1 # 2) = (y - inject_Z (Qfloor y) ?= 1 # 2))%Q as ->.
  { apply Qcompare_comp; [by rewrite H | reflexivity]. }
  reflexivity.
Qed.

Lemma round2_one x : (x == 1)%Q -> round2 x = 1%Q.
Proof.
  intros H. unfold round2.
  rewrite (round_half_even_proper (x * 100) 100) by (rewrite H; reflexivity).
  vm_compute. reflexivity.
Qed.

(** X22: When a record of the plan's corpus has a searched text equal to the
    query up to letter case, a result of [execute] scores 1.0, and the
    pipeline passes it with the confidence 1.0. *)
Theorem exact_match_pipeline (lower : pystr -> pystr) (self : tools.ToolExecutor)
    (plan : planner.TaskPlan) (entries : list (gmap pystr pystr)) (fields : list pystr)
    (i : nat) (e : gmap pystr pystr) (r : tools.RetrievalResult) :
  (forall s, s <> [] -> lower s <> []) ->
  tool_corpus self (planner.tool_name plan) = Some (entries, fields) ->
  entries !! i = Some e ->
  planner.query plan <> [] -> tools.field_text e fields <> [] ->
  lower (tools.field_text e fields) = lower (planner.query plan) ->
  tools.execute lower self plan = Some r ->
  (tools.score r == 1)%Q /\
  verifier.passed (verifier.verify plan (solver.solve plan r) r) = true /\
  verifier.feedback (verifier.verify plan (solver.solve plan r) r) = py "通过校验" /\
  verifier.confidence (verifier.verify plan (solver.solve plan r) r) = 1%Q.
Proof.
  intros Hlower Hc Hi Hq Ht Heq Hex.
  destruct (best_match_exact_aux lower _ fields entries i e Hlower Hi Hq Ht Heq)
    as (i' & e' & s & Hbm & Hs & _).
  assert (selected lower self plan = (Some e', s)) as Hsel.
  { unfold selected. by rewrite Hc. }
  assert (tools.score r = s /\ tools.context r <> []) as [Hscore Hctx].
  { apply execute_cases in Hex as (_ & _ & [Hunk | [Hnone | Hsome]]).
    - destruct Hunk as [Hunk _]. rewrite Hunk in Hc. discriminate Hc.
    - destruct Hnone as [Hnone _]. rewrite Hnone in Hsel. discriminate Hsel.
    - destruct Hsome as (e'' & Hsel' & _ & Hctx). rewrite Hsel' in Hsel.
      by injection Hsel as _ ->. }
  rewrite <- Hscore in Hs.
  destruct (verify_of_solve_aux plan plan r) as [Hp Hf].
  apply is_empty_false in Hctx. rewrite Hctx in Hp, Hf. cbn [negb] in Hp.
  split; [done|]. split; [done|]. split; [done|].
  unfold verifier.verify. cbn [verifier.confidence].
  assert (Qeq_bool (tools.score r) 0 = false) as ->.
  { destruct (Qeq_bool (tools.score r) 0) eqn:E; [|done].
    apply Qeq_bool_iff in E. rewrite E in Hs. discriminate Hs. }
  cbn [negb]. by apply round2_one.
Qed.

(** ** The further properties at the sample data *)

Lemma plan_case_insensitive_witness :
  planner.task_type (planner.plan ascii_lower planner.Planner_default (py "SOP Steps"))
  = planner.task_type (planner.plan ascii_lower planner.Planner_default (py "sop steps")) /\
  planner.tool_name (planner.plan ascii_lower planner.Planner_default (py "SOP Steps"))
  = planner.tool_name (planner.plan ascii_lower planner.Planner_default (py "sop steps")) /\
  planner.metadata (planner.plan ascii_lower planner.Planner_default (py "SOP Steps"))
  = planner.metadata (planner.plan ascii_lower planner.Planner_default (py "sop steps")).
Proof.
  apply (plan_case_insensitive ascii_lower planner.Planner_default
           (py "SOP Steps") (py "sop steps")).
  vm_compute. reflexivity.
Defined.

Lemma execute_score_range_witness :
  match tools.execute ascii_lower sample_executor sample_plan with
  | Some r => (0 <= tools.score r <= 1)%Q
  | None => False
  end.
Proof.
  destruct (tools.execute ascii_lower sample_executor sample_plan) as [r|] eqn:E.
  - exact (execute_score_range ascii_lower sample_executor sample_plan r E).
  - vm_compute in E. discriminate E.
Defined.


Lemma verify_confidence_range_witness :
  (0 <= verifier.confidence
          (verifier.verify sample_plan (solver.solve sample_plan sample_retrieval)
             sample_retrieval) <= 1)%Q.
Proof.
  apply (verify_confidence_range sample_plan (solver.solve sample_plan sample_retrieval)
           sample_retrieval).
  split; apply Qle_bool_iff; vm_compute; reflexivity.
Defined.

Lemma sample_execute_context r :
  tools.execute ascii_lower sample_executor sample_plan = Some r -> tools.context r <> [].
Proof.
  intros E Hc.
  pose proof (f_equal (fun o => match o with
                                | Some r' => is_empty (tools.context r')
                                | None => true
                                end) E) as H.
  cbv beta iota in H. rewrite Hc in H. vm_compute in H. discriminate H.
Qed.

Lemma solve_references_of_execute_witness :
  match tools.execute ascii_lower sample_executor sample_plan with
  | Some r =>
      solver.references (solver.solve sample_plan r) !! py "source" = Some (tools.source r) /\
      solver.references (solver.solve sample_plan r) !! py "score"
      = Some (format_2f (tools.score r)) /\
      (forall k v, tools.metadata r !! k = Some v ->
                   solver.references (solver.solve sample_plan r) !! k = Some v) /\
      (forall k, is_Some (solver.references (solver.solve sample_plan r) !! k) ->
                 k = py "source" \/ k = py "score" \/ is_Some (tools.metadata r !! k))
  | None => False
  end.
Proof.
  destruct (tools.execute ascii_lower sample_executor sample_plan) as [r|] eqn:E.
  - exact (solve_references_of_execute ascii_lower sample_executor sample_plan sample_plan r
             E (sample_execute_context r E)).
  - vm_compute in E. discriminate E.
Defined.

Lemma pipeline_confidence_witness :
  match tools.execute ascii_lower sample_executor sample_plan with
  | Some r =>
      verifier.confidence (verifier.verify sample_plan (solver.solve sample_plan r) r)
      = round2 (tools.score r) /\
      (verifier.passed (verifier.verify sample_plan (solver.solve sample_plan r) r) = true <->
       (0 < tools.score r)%Q)
  | None => False
  end.
Proof.
  destruct (tools.execute ascii_lower sample_executor sample_plan) as [r|] eqn:E.
  - exact (pipeline_confidence ascii_lower sample_executor sample_plan r E).
  - vm_compute in E. discriminate E.
Defined.

Lemma nothing_selected_pipeline_witness :
  exists r,
    tools.execute ascii_lower sample_executor
      (planner.plan ascii_lower planner.Planner_default (py "hello")) = Some r /\
    tools.context r = [] /\
    solver.answer (solver.solve (planner.plan ascii_lower planner.Planner_default (py "hello")) r)
    = solver.refusal /\
    solver.references
      (solver.solve (planner.plan ascii_lower planner.Planner_default (py "hello")) r) = ∅ /\
    verifier.passed
      (verifier.verify (planner.plan ascii_lower planner.Planner_default (py "hello"))
         (solver.solve (planner.plan ascii_lower planner.Planner_default (py "hello")) r) r)
    = false /\
    verifier.feedback
      (verifier.verify (planner.plan ascii_lower planner.Planner_default (py "hello"))
         (solver.solve (planner.plan ascii_lower planner.Planner_default (py "hello")) r) r)
    = py "缺少检索上下文，建议人工复核" /\
    verifier.confidence
      (verifier.verify (planner.plan ascii_lower planner.Planner_default (py "hello"))
         (solver.solve (planner.plan ascii_lower planner.Planner_default (py "hello")) r) r)
    = 0%Q.
Proof.
  apply (nothing_selected_pipeline ascii_lower sample_executor
           (planner.plan ascii_lower planner.Planner_default (py "hello"))).
  vm_compute. reflexivity.
Defined.

Lemma blank_request_pipeline_witness :
  match tools.execute ascii_lower sample_executor
          (planner.plan ascii_lower planner.Planner_default (py "  ")) with
  | Some r =>
      planner.query (planner.plan ascii_lower planner.Planner_default (py "  ")) = [] /\
      tools.query r = [] /\
      tools.context r = [] /\
      solver.answer (solver.solve (planner.plan ascii_lower planner.Planner_default (py "  ")) r)
      = solver.refusal /\
      verifier.passed
        (verifier.verify (planner.plan ascii_lower planner.Planner_default (py "  "))
           (solver.solve (planner.plan ascii_lower planner.Planner_default (py "  ")) r) r)
      = false /\
      verifier.confidence
        (verifier.verify (planner.plan ascii_lower planner.Planner_default (py "  "))
           (solver.solve (planner.plan ascii_lower planner.Planner_default (py "  ")) r) r)
      = 0%Q
  | None => False
  end.
Proof.
  destruct (tools.execute ascii_lower sample_executor
              (planner.plan ascii_lower planner.Planner_default (py "  "))) as [r|] eqn:E.
  - apply (blank_request_pipeline ascii_lower planner.Planner_default sample_executor
             (py "  ") r); [|exact E].
    vm_compute. repeat constructor.
  - vm_compute in E. discriminate E.
Defined.

Lemma load_bom_corpus_execute_witness :
  match tools._load_bom_corpus (Some sample_bom_text) with
  | Some entries =>
      is_Some (tools.execute ascii_lower (tools.mkToolExecutor sample_alerts [] entries)
                 (planner.plan ascii_lower planner.Planner_default (py "工单 PUMP-01 seal leak")))
  | None => False
  end.
Proof.
  destruct (tools._load_bom_corpus (Some sample_bom_text)) as [entries|] eqn:E.
  - apply (load_bom_corpus_execute ascii_lower _ sample_alerts [] entries _ E).
    vm_compute. reflexivity.
  - destruct (load_bom_corpus_records_aux (Some sample_bom_text)) as (es & Hes & _).
    rewrite Hes in E. discriminate E.
Defined.

Lemma bom_line_parses_witness :
  tools.bom_line (py "PUMP-01 " ++ py "|" ++ py " seal leak " ++ py "|" ++
                  py " WO" ++ py ":" ++ py " WO-1001 " ++ py "|" ++
                  py " advice" ++ py ":" ++ py " replace the seal" ++ [])
  = Some (Some (bom_record (strip (py "PUMP-01 ")) (strip (py " seal leak "))
                  (strip (py " WO-1001 ")) (strip (py " replace the seal")))).
Proof.
  apply (bom_line_parses (py "PUMP-01 ") (py " seal leak ") (py " WO") (py " WO-1001 ")
           (py " advice") (py " replace the seal") []).
  1-8: refine (bool_decide_unpack _ _); vm_compute; exact I.
  - by left.
  - vm_compute. reflexivity.
Defined.

Lemma exact_match_pipeline_witness :
  match tools.execute ascii_lower sample_exact_executor sample_exact_plan with
  | Some r =>
      (tools.score r == 1)%Q /\
      verifier.passed
        (verifier.verify sample_exact_plan (solver.solve sample_exact_plan r) r) = true /\
      verifier.feedback
        (verifier.verify sample_exact_plan (solver.solve sample_exact_plan r) r)
      = py "通过校验" /\
      verifier.confidence
        (verifier.verify sample_exact_plan (solver.solve sample_exact_plan r) r) = 1%Q
  | None => False
  end.
Proof.
  destruct (tools.execute ascii_lower sample_exact_executor sample_exact_plan) as [r|] eqn:E.
  - apply (exact_match_pipeline ascii_lower sample_exact_executor sample_exact_plan
             [sample_exact_alert] [py "symptom"; py "probable_causes"] 0
             sample_exact_alert r).
    + apply ascii_lower_nonempty.
    + unfold tool_corpus. rewrite decide_True; [reflexivity|]. vm_compute. reflexivity.
    + reflexivity.
    + intros H. vm_compute in H. discriminate H.
    + intros H. vm_compute in H. discriminate H.
    + vm_compute. reflexivity.
    + exact E.
  - vm_compute in E. discriminate E.
Defined.
